(** * Sentence-embedding inference script: mean pooling and L2 normalisation

    A shallow embedding of [code/inference.py], the script written by the
    notebook [sagemaker/17_custom_inference_script/sagemaker-notebook.ipynb]:

    - [mean_pooling]  attention-mask weighted mean of the token embeddings;
    - [predict_fn]    tokenise, encode, pool, normalise, return row 0.

    The script is a composition of PyTorch tensor primitives.  Each primitive
    it calls ([unsqueeze], [expand], [float], [*], [sum], [clamp], [/],
    [F.normalize], indexing, [tolist]) is modelled by a function of the same
    name, with the shape rules of the library written out: [expand] raises a
    [RuntimeError] on a non-singleton size mismatch and broadcasts singleton
    dimensions, elementwise operators broadcast, indexing raises
    [IndexError] out of range.

    Tensor elements are kept abstract in a class [Scalar] with two instances:
    exact real arithmetic ([R], the idealisation in which the value-level
    properties are stated) and IEEE-754 binary32 ([spec_float] at precision
    24, the element type the script runs on, which makes every definition
    executable). *)

From Stdlib Require Import ZArith Reals Lra Lia List Bool String.
From Stdlib Require Import Floats.SpecFloat.
From stdpp Require Import gmap strings.
Import ListNotations.

Local Open Scope nat_scope.

(** ** Python exceptions and the error monad *)

Inductive exception : Type :=
| RuntimeError   (* raised by torch on incompatible shapes *)
| IndexError     (* raised by tensor indexing out of range *)
| External (msg : string).  (* raised inside the tokenizer or the encoder *)

Inductive result (A : Type) : Type :=
| Ok (a : A)
| Raise (e : exception).
Arguments Ok {A} a.
Arguments Raise {A} e.

Definition bind {A B : Type} (r : result A) (k : A -> result B) : result B :=
  match r with
  | Ok a => k a
  | Raise e => Raise e
  end.

Notation "'let*' x ':=' r 'in' k" := (bind r (fun x => k))
  (at level 10, x name, r at level 100, k at level 200).

(** ** Tensor elements *)

Class Scalar (T : Type) : Type := {
  szero : T;
  sadd : T -> T -> T;
  smul : T -> T -> T;
  sdiv : T -> T -> T;
  ssqrt : T -> T;
  sclamp_min : T -> T -> T;   (* [sclamp_min x lo]: torch.clamp(x, min=lo) *)
  of_int : Z -> T;            (* conversion of an int64 element by [.float()] *)
  lit_1e_9 : T;               (* the Python literal 1e-9 in the element type *)
  lit_1e_12 : T               (* the Python literal 1e-12 in the element type *)
}.

(** Exact arithmetic. *)
#[export] Instance RealScalar : Scalar R := {|
  szero := 0%R;
  sadd := Rplus;
  smul := Rmult;
  sdiv := Rdiv;
  ssqrt := sqrt;
  sclamp_min := Rmax;
  of_int := IZR;
  lit_1e_9 := (/ 1000000000)%R;
  lit_1e_12 := (/ 1000000000000)%R
|}.

(** IEEE-754 binary32, the default dtype of the tensors of the script. *)
Module Binary32.

Definition prec : Z := 24.
Definition emax : Z := 128.

(** [torch.clamp(x, min=lo)]: a NaN element stays NaN. *)
Definition clamp_min (x lo : spec_float) : spec_float :=
  match SFcompare x lo with
  | Some Lt => lo
  | _ => x
  end.

(** The nearest binary32 numbers to the literals: 9007199 * 2^-53 and
    9223372 * 2^-63. *)
Definition f1e_9 : spec_float := S754_finite false 9007199 (-53).
Definition f1e_12 : spec_float := S754_finite false 9223372 (-63).

Definition is_finite (x : spec_float) : bool :=
  match x with
  | S754_zero _ | S754_finite _ _ _ => true
  | S754_infinity _ | S754_nan => false
  end.

Definition is_zero (x : spec_float) : bool :=
  match x with
  | S754_zero _ => true
  | _ => false
  end.

(** Two results are the same number when they are equal or both a zero
    (0.0 == -0.0). *)
Definition same_number (x y : spec_float) : Prop :=
  x = y \/ (is_zero x = true /\ is_zero y = true).

End Binary32.

#[export] Instance FloatScalar : Scalar spec_float := {|
  szero := S754_zero false;
  sadd := SFadd Binary32.prec Binary32.emax;
  smul := SFmul Binary32.prec Binary32.emax;
  sdiv := SFdiv Binary32.prec Binary32.emax;
  ssqrt := SFsqrt Binary32.prec Binary32.emax;
  sclamp_min := Binary32.clamp_min;
  of_int := fun z => binary_normalize Binary32.prec Binary32.emax z 0 false;
  lit_1e_9 := Binary32.f1e_9;
  lit_1e_12 := Binary32.f1e_12
|}.

(** ** Tensors

    A tensor is its shape together with its elements, read by index.  Only
    the elements inside the shape are meaningful. *)

Record Tensor2 (A : Type) : Type := mkTensor2 {
  nrows : nat;
  ncols : nat;
  at2 : nat -> nat -> A
}.
Arguments mkTensor2 {A} _ _ _.
Arguments nrows {A} _.
Arguments ncols {A} _.
Arguments at2 {A} _ _ _.

Record Tensor3 (A : Type) : Type := mkTensor3 {
  dim0 : nat;
  dim1 : nat;
  dim2 : nat;
  at3 : nat -> nat -> nat -> A
}.
Arguments mkTensor3 {A} _ _ _ _.
Arguments dim0 {A} _.
Arguments dim1 {A} _.
Arguments dim2 {A} _.
Arguments at3 {A} _ _ _ _.

Definition size2 {A} (t : Tensor2 A) : nat * nat := (nrows t, ncols t).
Definition size3 {A} (t : Tensor3 A) : nat * nat * nat := (dim0 t, dim1 t, dim2 t).

(** Tensors from nested Python lists, the shape being that of the first
    rows; and back ([Tensor.tolist]). *)
Definition tensor2 {A} (dflt : A) (rows : list (list A)) : Tensor2 A :=
  mkTensor2 (length rows) (length (nth 0 rows []))
            (fun i j => nth j (nth i rows []) dflt).

Definition tensor3 {A} (dflt : A) (blocks : list (list (list A))) : Tensor3 A :=
  mkTensor3 (length blocks) (length (nth 0 blocks []))
            (length (nth 0 (nth 0 blocks []) []))
            (fun b l d => nth d (nth l (nth b blocks []) []) dflt).

Definition tolist1 {A} (n : nat) (f : nat -> A) : list A := map f (seq 0 n).

Definition tolist2 {A} (t : Tensor2 A) : list (list A) :=
  tolist1 (nrows t) (fun i => tolist1 (ncols t) (at2 t i)).

(** Two tensors are the same when they have the same shape and the same
    elements inside it. *)
Definition same2 {A} (x y : Tensor2 A) : Prop :=
  size2 x = size2 y /\
  forall i j, i < nrows x -> j < ncols x -> at2 x i j = at2 y i j.

(** ** The torch primitives used by the script *)

Module Torch.

(** Size rule of [Tensor.expand]: a dimension keeps its size or, when it
    is a singleton, is repeated. *)
Definition expandable (have want : nat) : bool :=
  (have =? want) || (have =? 1).

(** Index into a possibly broadcast dimension (stride 0 on singletons). *)
Definition bidx (have i : nat) : nat := if have =? 1 then 0 else i.

(** Size rule of broadcasting for elementwise binary operators. *)
Definition broadcast_dim (a b : nat) : option nat :=
  if a =? b then Some a
  else if a =? 1 then Some b
  else if b =? 1 then Some a
  else None.

Section Generic.
Context {A : Type}.

(** [t.unsqueeze(-1)] on a matrix. *)
Definition unsqueeze_last (t : Tensor2 A) : Tensor3 A :=
  mkTensor3 (nrows t) (ncols t) 1 (fun b l _ => at2 t b l).

(** [t.expand(size)] on a rank-3 tensor. *)
Definition expand3 (t : Tensor3 A) (size : nat * nat * nat)
  : result (Tensor3 A) :=
  let '(n0, n1, n2) := size in
  if expandable (dim0 t) n0 && expandable (dim1 t) n1
     && expandable (dim2 t) n2
  then Ok (mkTensor3 n0 n1 n2
             (fun b l d => at3 t (bidx (dim0 t) b) (bidx (dim1 t) l)
                                 (bidx (dim2 t) d)))
  else Raise RuntimeError.

(** [t.expand_as(other)] on a matrix. *)
Definition expand2 (t : Tensor2 A) (size : nat * nat)
  : result (Tensor2 A) :=
  let '(n0, n1) := size in
  if expandable (nrows t) n0 && expandable (ncols t) n1
  then Ok (mkTensor2 n0 n1
             (fun i j => at2 t (bidx (nrows t) i) (bidx (ncols t) j)))
  else Raise RuntimeError.

(** [t[i]] on a matrix. *)
Definition index_row (t : Tensor2 A) (i : nat) : result (list A) :=
  if i <? nrows t then Ok (tolist1 (ncols t) (at2 t i))
  else Raise IndexError.

End Generic.

Section Numeric.
Context {T : Type} `{Scalar T}.

(** [t.float()] on an integer tensor. *)
Definition float (t : Tensor3 Z) : Tensor3 T :=
  mkTensor3 (dim0 t) (dim1 t) (dim2 t) (fun b l d => of_int (at3 t b l d)).

(** Sum of a sequence of elements, added from zero in sequence order.
    (The library does not fix the order of a reduction; in exact arithmetic
    the order is immaterial.) *)
Definition ssum (xs : list T) : T := fold_left sadd xs szero.

(** [x * y], elementwise with broadcasting. *)
Definition mul (x y : Tensor3 T) : result (Tensor3 T) :=
  match broadcast_dim (dim0 x) (dim0 y),
        broadcast_dim (dim1 x) (dim1 y),
        broadcast_dim (dim2 x) (dim2 y) with
  | Some n0, Some n1, Some n2 =>
      Ok (mkTensor3 n0 n1 n2
            (fun b l d =>
               smul (at3 x (bidx (dim0 x) b) (bidx (dim1 x) l) (bidx (dim2 x) d))
                    (at3 y (bidx (dim0 y) b) (bidx (dim1 y) l) (bidx (dim2 y) d))))
  | _, _, _ => Raise RuntimeError
  end.

(** [x / y], elementwise with broadcasting. *)
Definition div (x y : Tensor2 T) : result (Tensor2 T) :=
  match broadcast_dim (nrows x) (nrows y),
        broadcast_dim (ncols x) (ncols y) with
  | Some n0, Some n1 =>
      Ok (mkTensor2 n0 n1
            (fun i j =>
               sdiv (at2 x (bidx (nrows x) i) (bidx (ncols x) j))
                    (at2 y (bidx (nrows y) i) (bidx (ncols y) j))))
  | _, _ => Raise RuntimeError
  end.

(** [torch.sum(x, 1)] on a rank-3 tensor. *)
Definition sum_dim1 (x : Tensor3 T) : Tensor2 T :=
  mkTensor2 (dim0 x) (dim2 x)
            (fun b d => ssum (tolist1 (dim1 x) (fun l => at3 x b l d))).

(** [torch.clamp(x, min=lo)]. *)
Definition clamp_min (x : Tensor2 T) (lo : T) : Tensor2 T :=
  mkTensor2 (nrows x) (ncols x) (fun i j => sclamp_min (at2 x i j) lo).

(** [x.norm(2, 1, keepdim=True)]: the L2 norm of each row. *)
Definition row_norm (x : Tensor2 T) (i : nat) : T :=
  ssqrt (ssum (tolist1 (ncols x) (fun j => smul (at2 x i j) (at2 x i j)))).

Definition norm2_dim1 (x : Tensor2 T) : Tensor2 T :=
  mkTensor2 (nrows x) 1 (fun i _ => row_norm x i).

(** [F.normalize(input, p=2, dim=1)], with the default [eps=1e-12]:
    [denom = input.norm(p, dim, keepdim=True).clamp_min(eps).expand_as(input)]
    and [return input / denom]. *)
Definition normalize (input : Tensor2 T) : result (Tensor2 T) :=
  let* denom := expand2 (clamp_min (norm2_dim1 input) lit_1e_12)
                        (size2 input) in
  div input denom.

End Numeric.

End Torch.

(** ** The inference script *)

(** The encoder's output: [model_output[0]] holds the token embeddings. *)
Record ModelOutput (T : Type) : Type := mkModelOutput {
  last_hidden_state : Tensor3 T;
  pooler_output : Tensor2 T
}.
Arguments mkModelOutput {T} _ _.
Arguments last_hidden_state {T} _.
Arguments pooler_output {T} _.

Section MeanPooling.
Context {T : Type} `{Scalar T}.

Definition mean_pooling (model_output : ModelOutput T)
           (attention_mask : Tensor2 Z) : result (Tensor2 T) :=
  let token_embeddings := last_hidden_state model_output in
  let* expanded := Torch.expand3 (Torch.unsqueeze_last attention_mask)
                                 (size3 token_embeddings) in
  let input_mask_expanded := Torch.float expanded in
  let* weighted := Torch.mul token_embeddings input_mask_expanded in
  Torch.div (Torch.sum_dim1 weighted)
            (Torch.clamp_min (Torch.sum_dim1 input_mask_expanded) lit_1e_9).

End MeanPooling.

(** The request is a JSON object; its values are sentences or other JSON
    scalars. *)
Inductive pyvalue : Type :=
| PyStr (s : string)
| PyList (l : list string)
| PyInt (z : Z).

(** What the tokenizer is called on: the popped value, or the request
    object itself (the default of [pop]). *)
Inductive sentences_arg : Type :=
| Popped (v : pyvalue)
| WholeRequest (data : gmap string pyvalue).

(** The tokenizer's output ([return_tensors='pt']). *)
Record BatchEncoding : Type := mkBatchEncoding {
  input_ids : Tensor2 Z;
  attention_mask : Tensor2 Z
}.

(** [d.pop(key, default)]: removes [key] and returns its value when the key
    is present, returns [default] and leaves [d] alone otherwise.  The first
    component is the returned object, the second the dictionary afterwards. *)
Definition dict_pop {V D : Type} (d : gmap string V) (key : string)
           (default : D) (found : V -> D) : D * gmap string V :=
  match d !! key with
  | Some v => (found v, delete key d)
  | None => (default, d)
  end.

Section PredictFn.
Context {T : Type} `{Scalar T}.

Definition Tokenizer : Type := sentences_arg -> result BatchEncoding.
Definition Model : Type := BatchEncoding -> result (ModelOutput T).

(** The body of [predict_fn] after the request has been read. *)
Definition embed_sentences (model : Model) (tokenizer : Tokenizer)
           (sentences : sentences_arg) : result (gmap string (list T)) :=
  let* encoded_input := tokenizer sentences in
  let* model_output := model encoded_input in
  let* sentence_embeddings :=
    mean_pooling model_output (attention_mask encoded_input) in
  let* sentence_embeddings := Torch.normalize sentence_embeddings in
  let* row0 := Torch.index_row sentence_embeddings 0 in
  Ok {[ "vectors" := row0 ]}.

(** [predict_fn(data, model_and_tokenizer)]: the caller's dictionary after
    the call, and the returned payload or the exception raised. *)
Definition predict_fn (data : gmap string pyvalue)
           (model_and_tokenizer : Model * Tokenizer)
  : gmap string pyvalue * result (gmap string (list T)) :=
  let '(model, tokenizer) := model_and_tokenizer in
  let '(sentences, data) :=
    dict_pop data "inputs" (WholeRequest data) Popped in
  (data, embed_sentences model tokenizer sentences).

End PredictFn.

(** ** Quantities the properties are stated with *)

Section Quantities.
Context {T : Type} `{Scalar T}.

(** The weight of token [l] of row [b] in [mean_pooling]: the mask
    element, read through the broadcast of [expand], as a float. *)
Definition mask_weight (m : Tensor2 Z) (b l : nat) : T :=
  of_int (at2 m (Torch.bidx (nrows m) b) (Torch.bidx (ncols m) l)).

(** Element [b][d] of [torch.sum(token_embeddings * input_mask_expanded, 1)]
    and of [torch.clamp(input_mask_expanded.sum(1), min=1e-9)]. *)
Definition pooled_numerator (e : Tensor3 T) (m : Tensor2 Z) (b d : nat) : T :=
  Torch.ssum (tolist1 (dim1 e) (fun l => smul (at3 e b l d) (mask_weight m b l))).

Definition pooled_denominator (e : Tensor3 T) (m : Tensor2 Z) (b : nat) : T :=
  sclamp_min (Torch.ssum (tolist1 (dim1 e) (fun l => mask_weight m b l))) lit_1e_9.

(** Row [i] of [denom] in [F.normalize]. *)
Definition norm_denominator (p : Tensor2 T) (i : nat) : T :=
  sclamp_min (Torch.row_norm p i) lit_1e_12.

(** The object [predict_fn] hands to the tokenizer for a given request. *)
Definition request_sentences (data : gmap string pyvalue) : sentences_arg :=
  fst (dict_pop data "inputs" (WholeRequest data) Popped).

(** The pooling formula of the specification, to compare the code with:
    [sum_over_l(embedding[b][l][d] * mask[b][l])
     / max(sum_over_l(mask[b][l]), epsilon)]. *)
Definition spec_pooled (e : Tensor3 T) (m : Tensor2 Z) (b d : nat) : T :=
  sdiv (Torch.ssum (tolist1 (dim1 e)
                      (fun l => smul (at3 e b l d) (of_int (at2 m b l)))))
       (sclamp_min (Torch.ssum (tolist1 (dim1 e)
                                  (fun l => of_int (at2 m b l))))
                   lit_1e_9).

(** [t.tolist()] on the outcome of a computation. *)
Definition tolist_result (r : result (Tensor2 T)) : result (list (list T)) :=
  let* t := r in Ok (tolist2 t).

End Quantities.

(** The unweighted arithmetic mean of a sequence of reals. *)
Definition arithmetic_mean (xs : list R) : R :=
  (Torch.ssum xs / INR (length xs))%R.

(** ** Concrete inputs *)

Module Examples.

(** Tensors with integer-valued elements, in either element type. *)
Definition elements3 {T : Type} `{Scalar T} (xs : list (list (list Z)))
  : Tensor3 T :=
  tensor3 szero (map (map (map of_int)) xs).

Definition elements2 {T : Type} `{Scalar T} (xs : list (list Z)) : Tensor2 T :=
  tensor2 szero (map (map of_int) xs).

Definition mask (xs : list (list Z)) : Tensor2 Z := tensor2 0%Z xs.

(** An encoder output with the given token embeddings. *)
Definition output {T : Type} `{Scalar T} (xs : list (list (list Z)))
  : ModelOutput T :=
  mkModelOutput (elements3 xs) (elements2 []).

(** A tokenizer and an encoder that answer with fixed tensors. *)
Definition fixed_tokenizer (m : list (list Z)) : Tokenizer :=
  fun _ => Ok (mkBatchEncoding (mask m) (mask m)).

Definition fixed_model {T : Type} `{Scalar T} (xs : list (list (list Z)))
  : @Model T :=
  fun _ => Ok (output xs).

(** The real matrix [[x]]. *)
Definition single (x : R) : Tensor2 R := tensor2 0%R [[x]].

(** A pooled row of norm 1e-13, below the floor of [F.normalize]. *)
Definition tiny : Tensor2 R := single (/ 10000000000000)%R.

(** Binary32 numbers: [float32 z] is the integer [z], [pow2 k] is 2^k for
    a [k] in the normal range. *)
Definition float32 (z : Z) : spec_float := of_int z.
Definition pow2 (k : Z) : spec_float := S754_finite false 8388608 (k - 23).

(** Pooling then normalisation, both results as lists. *)
Definition pool_then_normalize {T : Type} `{Scalar T}
           (out : ModelOutput T) (m : Tensor2 Z)
  : result (list (list T) * list (list T)) :=
  let* pooled := mean_pooling out m in
  let* normalized := Torch.normalize pooled in
  Ok (tolist2 pooled, tolist2 normalized).

End Examples.

(** ** The notebook cells around the script

    Cell 3 checks the installed SDK version, cell 12 derives the model
    directory and the upload location from the repository name.  Python
    strings are modelled by [string], for code points below 256. *)

Module Notebook.
Import Stdlib.Strings.Ascii.

(** [s < t], [s == t] or [s > t] on [str]: code point by code point, a
    proper prefix being the smaller. *)
Fixpoint str_compare (s t : string) : comparison :=
  match s, t with
  | EmptyString, EmptyString => Eq
  | EmptyString, String _ _ => Lt
  | String _ _, EmptyString => Gt
  | String a s', String b t' =>
      match Nat.compare (nat_of_ascii a) (nat_of_ascii b) with
      | Eq => str_compare s' t'
      | Lt => Lt
      | Gt => Gt
      end
  end.

(** [s >= t] on [str]. *)
Definition str_ge (s t : string) : bool :=
  match str_compare s t with
  | Lt => false
  | _ => true
  end.

(** The condition of [assert sagemaker.__version__ >= "2.75.0"]. *)
Definition version_assertion (version : string) : bool :=
  str_ge version "2.75.0".

(** [s.split(sep)] for a separator of one character. *)
Fixpoint split (sep : ascii) (s : string) : list string :=
  match s with
  | EmptyString => [EmptyString]
  | String c rest =>
      if Strings.Ascii.eqb c sep then EmptyString :: split sep rest
      else match split sep rest with
           | [] => [String c EmptyString]
           | field :: fields => String c field :: fields
           end
  end.

(** [l[-1]]. *)
Fixpoint index_last {A : Type} (l : list A) : result A :=
  match l with
  | [] => Raise IndexError
  | [x] => Ok x
  | _ :: rest => index_last rest
  end.

(** [model_id = repository.split("/")[-1]]. *)
Definition model_id (repository : string) : result string :=
  index_last (split "/"%char repository).

(** [s3_location =
     f"s3://{sess.default_bucket()}/custom_inference/{model_id}/model.tar.gz"]. *)
Definition s3_location (default_bucket model_id : string) : string :=
  String.append "s3://"
    (String.append default_bucket
       (String.append "/custom_inference/"
          (String.append model_id "/model.tar.gz"))).

(** Cell 12 as a whole: the upload location derived from the default
    bucket and the repository name. *)
Definition upload_location (default_bucket repository : string)
  : result string :=
  let* id := model_id repository in
  Ok (s3_location default_bucket id).

(** The character of a decimal digit, and whether a string holds a given
    character. *)
Definition digit (d : nat) : ascii := ascii_of_nat (48 + d).

Fixpoint contains (c : ascii) (s : string) : bool :=
  match s with
  | EmptyString => false
  | String a rest => Strings.Ascii.eqb a c || contains c rest
  end.

End Notebook.

(** * Properties *)

(** ** Shape rules *)

Lemma bidx_lt (n i : nat) : i < n -> Torch.bidx n i = i.
Proof.
  unfold Torch.bidx. destruct (Nat.eqb_spec n 1); lia.
Qed.

Lemma expandable_refl (n : nat) : Torch.expandable n n = true.
Proof.
  unfold Torch.expandable. now rewrite Nat.eqb_refl.
Qed.

Lemma expandable_singleton (n : nat) : Torch.expandable 1 n = true.
Proof.
  unfold Torch.expandable. now rewrite orb_true_r.
Qed.

Lemma expandable_spec (have want : nat) :
  Torch.expandable have want = true <-> have = want \/ have = 1.
Proof.
  unfold Torch.expandable.
  rewrite orb_true_iff, !Nat.eqb_eq. reflexivity.
Qed.

Lemma expandable_false (have want : nat) :
  Torch.expandable have want = false <-> have <> want /\ have <> 1.
Proof.
  unfold Torch.expandable.
  rewrite orb_false_iff, !Nat.eqb_neq. reflexivity.
Qed.

Lemma broadcast_dim_refl (n : nat) : Torch.broadcast_dim n n = Some n.
Proof.
  unfold Torch.broadcast_dim. now rewrite Nat.eqb_refl.
Qed.

Lemma tolist1_ext {A} (n : nat) (f g : nat -> A) :
  (forall i, i < n -> f i = g i) -> tolist1 n f = tolist1 n g.
Proof.
  intros Hfg. unfold tolist1. apply map_ext_in.
  intros i Hi. apply in_seq in Hi. apply Hfg. lia.
Qed.

Lemma tolist1_length {A} (n : nat) (f : nat -> A) : length (tolist1 n f) = n.
Proof.
  unfold tolist1. now rewrite length_map, length_seq.
Qed.

Lemma tolist1_S {A} (n : nat) (f : nat -> A) :
  tolist1 (S n) f = tolist1 n f ++ [f n].
Proof.
  unfold tolist1. now rewrite seq_S, map_app.
Qed.

(** ** What [mean_pooling] computes, for any element type *)

Section PoolingGeneric.
Context {T : Type} `{Scalar T}.

Lemma mean_pooling_expandable (out : ModelOutput T) (m : Tensor2 Z) :
  let e := last_hidden_state out in
  Torch.expandable (nrows m) (dim0 e) = true ->
  Torch.expandable (ncols m) (dim1 e) = true ->
  exists pooled,
    mean_pooling out m = Ok pooled /\
    size2 pooled = (dim0 e, dim2 e) /\
    forall b d, b < dim0 e -> d < dim2 e ->
      at2 pooled b d
      = sdiv (pooled_numerator e m b d) (pooled_denominator e m b).
Proof.
  intros e Hb Hl.
  unfold mean_pooling, Torch.expand3, size3. fold e.
  cbn [Torch.unsqueeze_last dim0 dim1 dim2].
  rewrite Hb, Hl, expandable_singleton. cbn [andb bind].
  unfold Torch.mul, Torch.float. cbn [dim0 dim1 dim2].
  rewrite !broadcast_dim_refl. cbn [bind].
  unfold Torch.div, Torch.sum_dim1, Torch.clamp_min.
  cbn [nrows ncols dim0 dim1 dim2].
  rewrite !broadcast_dim_refl.
  eexists. split; [reflexivity|]. split; [reflexivity|].
  intros b d Hb' Hd'. cbn [at2 at3].
  rewrite !(bidx_lt _ b), !(bidx_lt _ d) by assumption.
  unfold pooled_numerator, pooled_denominator, mask_weight.
  do 2 f_equal. apply tolist1_ext. intros l Hl'.
  now rewrite !(bidx_lt (dim1 e) l) by assumption.
Qed.

Lemma mean_pooling_mismatch (out : ModelOutput T) (m : Tensor2 Z) :
  let e := last_hidden_state out in
  Torch.expandable (nrows m) (dim0 e) = false \/
  Torch.expandable (ncols m) (dim1 e) = false ->
  mean_pooling out m = Raise RuntimeError.
Proof.
  intros e Hbad.
  unfold mean_pooling, Torch.expand3, size3. fold e.
  cbn [Torch.unsqueeze_last dim0 dim1 dim2].
  destruct Hbad as [-> | ->]; [reflexivity|].
  now rewrite andb_false_r.
Qed.

End PoolingGeneric.

(** ** What [F.normalize] computes, for any element type *)

Section NormalizeGeneric.
Context {T : Type} `{Scalar T}.

Lemma normalize_ok (p : Tensor2 T) :
  exists q,
    Torch.normalize p = Ok q /\
    size2 q = size2 p /\
    forall i j, i < nrows p -> j < ncols p ->
      at2 q i j = sdiv (at2 p i j) (norm_denominator p i).
Proof.
  unfold Torch.normalize, Torch.expand2, size2.
  cbn [Torch.clamp_min Torch.norm2_dim1 nrows ncols].
  rewrite expandable_refl, expandable_singleton. cbn [andb bind].
  unfold Torch.div. cbn [nrows ncols].
  rewrite !broadcast_dim_refl.
  eexists. split; [reflexivity|]. split; [reflexivity|].
  intros i j Hi Hj. cbn [at2].
  now rewrite !(bidx_lt _ i), !(bidx_lt _ j) by assumption.
Qed.

End NormalizeGeneric.

(** ** Reading the request *)

Section Request.
Context {T : Type} `{Scalar T}.

Lemma predict_fn_unfold (model : @Model T) (tokenizer : Tokenizer)
      (data : gmap string pyvalue) :
  predict_fn data (model, tokenizer)
  = (snd (dict_pop data "inputs" (WholeRequest data) Popped),
     embed_sentences model tokenizer (request_sentences data)).
Proof.
  unfold predict_fn, request_sentences.
  now destruct (dict_pop data "inputs" (WholeRequest data) Popped).
Qed.

End Request.

Section PoolingClaims.
Context {T : Type} `{Scalar T}.

Lemma spec_pooled_eq (e : Tensor3 T) (m : Tensor2 Z) (b d : nat) :
  b < nrows m -> ncols m = dim1 e ->
  sdiv (pooled_numerator e m b d) (pooled_denominator e m b)
  = spec_pooled e m b d.
Proof.
  intros Hb Hl.
  unfold pooled_numerator, pooled_denominator, mask_weight, spec_pooled.
  rewrite (bidx_lt _ b) by assumption.
  f_equal; [f_equal | f_equal; f_equal];
    apply tolist1_ext; intros l Hlt;
    now rewrite (bidx_lt _ l) by lia.
Qed.

Lemma mean_pooling_same_shape (out : ModelOutput T) (m : Tensor2 Z) :
  let e := last_hidden_state out in
  nrows m = dim0 e -> ncols m = dim1 e ->
  exists pooled,
    mean_pooling out m = Ok pooled /\
    size2 pooled = (dim0 e, dim2 e) /\
    forall b d, b < dim0 e -> d < dim2 e ->
      at2 pooled b d = spec_pooled e m b d.
Proof.
  intros e Hb Hl.
  destruct (mean_pooling_expandable out m) as (pooled & Hrun & Hsize & Hat).
  - fold e. rewrite Hb. apply expandable_refl.
  - fold e. rewrite Hl. apply expandable_refl.
  - exists pooled. repeat split; try assumption.
    intros b d Hb' Hd'. fold e in Hat. rewrite Hat by assumption.
    apply spec_pooled_eq; [lia | assumption].
Qed.

(** C1. For a token-embedding batch of shape (B, L, D) and an attention
    mask of shape (B, L) with values in {0,1}, [mean_pooling] returns a
    (B, D) tensor whose element [b][d] is the sum over l of
    embedding[b][l][d] * mask[b][l], divided by the sum over l of
    mask[b][l] floored at 1e-9, the floor being taken row by row. *)
Theorem mean_pooling_weighted_mean (out : ModelOutput T) (m : Tensor2 Z) :
  let e := last_hidden_state out in
  nrows m = dim0 e -> ncols m = dim1 e ->
  (forall b l, b < nrows m -> l < ncols m ->
               at2 m b l = 0%Z \/ at2 m b l = 1%Z) ->
  exists pooled,
    mean_pooling out m = Ok pooled /\
    size2 pooled = (dim0 e, dim2 e) /\
    forall b d, b < dim0 e -> d < dim2 e ->
      at2 pooled b d = spec_pooled e m b d.
Proof.
  intros e Hb Hl _. now apply mean_pooling_same_shape.
Qed.

(** C7, as the code has it. [mean_pooling] validates no mask value: when
    the mask has the batch size and sequence length of the embeddings it
    raises nothing, whatever the mask values, and a value outside {0,1}
    is used as it is, as a weight in the numerator and as a term of the
    denominator. *)
Theorem mean_pooling_accepts_any_mask (out : ModelOutput T) (m : Tensor2 Z) :
  let e := last_hidden_state out in
  nrows m = dim0 e -> ncols m = dim1 e ->
  exists pooled,
    mean_pooling out m = Ok pooled /\
    forall b d, b < dim0 e -> d < dim2 e ->
      at2 pooled b d
      = sdiv (Torch.ssum (tolist1 (dim1 e)
                 (fun l => smul (at3 e b l d) (of_int (at2 m b l)))))
             (sclamp_min (Torch.ssum (tolist1 (dim1 e)
                 (fun l => of_int (at2 m b l)))) lit_1e_9).
Proof.
  intros e Hb Hl.
  destruct (mean_pooling_same_shape out m Hb Hl) as (pooled & Hrun & _ & Hat).
  exists pooled. split; [assumption|]. exact Hat.
Qed.

(** C6, as the code has it. When the mask's batch size differs from the
    embeddings' and is not 1, or its sequence length differs from the
    embeddings' and is not 1, [mean_pooling] raises a [RuntimeError] (from
    [expand]) and produces no output.  Otherwise, each mask dimension being
    that of the embeddings or a singleton, which [expand] broadcasts, it
    returns a pooled tensor of shape (B, D). *)
Theorem mean_pooling_shape_error (out : ModelOutput T) (m : Tensor2 Z) :
  let e := last_hidden_state out in
  let mismatch := (nrows m <> dim0 e /\ nrows m <> 1) \/
                  (ncols m <> dim1 e /\ ncols m <> 1) in
  (mismatch -> mean_pooling out m = Raise RuntimeError) /\
  (~ mismatch ->
   exists pooled,
     mean_pooling out m = Ok pooled /\ size2 pooled = (dim0 e, dim2 e)).
Proof.
  intros e mismatch. split.
  - intros Hbad. apply mean_pooling_mismatch. fold e.
    destruct Hbad as [Hbad | Hbad]; [left | right];
      now apply expandable_false.
  - intros Hgood.
    destruct (Torch.expandable (nrows m) (dim0 e)) eqn:Hb;
      [| exfalso; apply Hgood; left; now apply expandable_false].
    destruct (Torch.expandable (ncols m) (dim1 e)) eqn:Hl;
      [| exfalso; apply Hgood; right; now apply expandable_false].
    destruct (mean_pooling_expandable out m Hb Hl) as (pooled & Hrun & Hsz & _).
    now exists pooled.
Qed.

End PoolingClaims.

Section ServingClaims.
Context {T : Type} `{Scalar T}.

(** C5. When the tokenizer and the encoder answer, with a mask of the
    embeddings' batch size and sequence length and at least one row,
    [predict_fn] returns the mapping with the single key "vectors" holding
    row 0 of the normalised sentence embeddings as a list; the rows after
    the first are not returned. *)
Theorem predict_fn_returns_first_row
        (model : @Model T) (tokenizer : Tokenizer)
        (data : gmap string pyvalue)
        (enc : BatchEncoding) (out : ModelOutput T) :
  let e := last_hidden_state out in
  tokenizer (request_sentences data) = Ok enc ->
  model enc = Ok out ->
  nrows (attention_mask enc) = dim0 e ->
  ncols (attention_mask enc) = dim1 e ->
  0 < dim0 e ->
  exists pooled normalized,
    mean_pooling out (attention_mask enc) = Ok pooled /\
    Torch.normalize pooled = Ok normalized /\
    size2 normalized = (dim0 e, dim2 e) /\
    snd (predict_fn data (model, tokenizer))
    = Ok {[ "vectors" := tolist1 (dim2 e) (fun d => at2 normalized 0 d) ]}.
Proof.
  intros e Htok Hmodel Hb Hl Hpos.
  destruct (mean_pooling_same_shape out _ Hb Hl) as (pooled & Hpool & Hsz & _).
  destruct (normalize_ok pooled) as (normalized & Hnorm & Hsz' & _).
  exists pooled, normalized.
  assert (Hshape : size2 normalized = (dim0 e, dim2 e))
    by (rewrite Hsz'; exact Hsz).
  repeat split; try assumption.
  rewrite predict_fn_unfold. cbn [snd].
  unfold embed_sentences.
  rewrite Htok. cbn [bind]. rewrite Hmodel. cbn [bind].
  rewrite Hpool. cbn [bind]. rewrite Hnorm. cbn [bind].
  unfold Torch.index_row.
  unfold size2 in Hshape. injection Hshape as Hrows Hcols.
  rewrite Hrows, Hcols.
  destruct (Nat.ltb_spec 0 (dim0 e)); [reflexivity | lia].
Qed.

(** C9. [predict_fn] mutates the request it is given: when the key
    "inputs" is present it is removed from the caller's mapping, every
    other key is left as it was, and the removed value is what is
    tokenised; when the key is absent the mapping is left as it was and
    the mapping itself is what is tokenised. *)
Theorem predict_fn_pops_inputs
        (model : @Model T) (tokenizer : Tokenizer)
        (data : gmap string pyvalue) :
  let after := fst (predict_fn data (model, tokenizer)) in
  let returned := snd (predict_fn data (model, tokenizer)) in
  match data !! "inputs" with
  | Some v =>
      after = delete "inputs" data /\
      after !! "inputs" = None /\
      (forall k, k <> "inputs" -> after !! k = data !! k) /\
      returned = embed_sentences model tokenizer (Popped v)
  | None =>
      after = data /\
      returned = embed_sentences model tokenizer (WholeRequest data)
  end.
Proof.
  cbn zeta. rewrite predict_fn_unfold. cbn [fst snd].
  unfold request_sentences, dict_pop.
  destruct (data !! "inputs") as [v|] eqn:Hin; cbn [fst snd].
  - repeat split.
    + apply lookup_delete_eq.
    + intros k Hk. now apply lookup_delete_ne.
  - split; reflexivity.
Qed.

End ServingClaims.

(** ** Value-level properties, in exact arithmetic *)

Section RealSums.
Local Open Scope R_scope.

Lemma rsum_snoc (xs : list R) (x : R) :
  Torch.ssum (xs ++ [x]) = Torch.ssum xs + x.
Proof.
  unfold Torch.ssum. now rewrite fold_left_app.
Qed.

Lemma rsum_S (n : nat) (f : nat -> R) :
  Torch.ssum (tolist1 (S n) f) = Torch.ssum (tolist1 n f) + f n.
Proof.
  now rewrite tolist1_S, rsum_snoc.
Qed.

Lemma rsum_0 (f : nat -> R) : Torch.ssum (tolist1 0 f) = 0.
Proof. reflexivity. Qed.

Lemma rsum_zero (n : nat) (f : nat -> R) :
  (forall i, (i < n)%nat -> f i = 0) -> Torch.ssum (tolist1 n f) = 0.
Proof.
  induction n as [|n IH]; intros Hf; [apply rsum_0|].
  rewrite rsum_S, IH by (intros; apply Hf; lia).
  rewrite (Hf n) by lia. lra.
Qed.

Lemma rsum_scale (n : nat) (f : nat -> R) (k : R) :
  Torch.ssum (tolist1 n (fun i => f i * k)) = Torch.ssum (tolist1 n f) * k.
Proof.
  induction n as [|n IH]; [rewrite !rsum_0; lra|].
  rewrite !rsum_S, IH. lra.
Qed.

Lemma rsum_ones (n : nat) : Torch.ssum (tolist1 n (fun _ => 1)) = INR n.
Proof.
  induction n as [|n IH]; [apply rsum_0|].
  rewrite rsum_S, IH, S_INR. lra.
Qed.

Lemma rsum_nonneg (n : nat) (f : nat -> R) :
  (forall i, (i < n)%nat -> 0 <= f i) -> 0 <= Torch.ssum (tolist1 n f).
Proof.
  induction n as [|n IH]; intros Hf; [rewrite rsum_0; lra|].
  rewrite rsum_S.
  assert (0 <= f n) by (apply Hf; lia).
  assert (0 <= Torch.ssum (tolist1 n f)) by (apply IH; intros; apply Hf; lia).
  lra.
Qed.

Lemma rsum_nonneg_zero (n : nat) (f : nat -> R) :
  (forall i, (i < n)%nat -> 0 <= f i) ->
  Torch.ssum (tolist1 n f) = 0 ->
  forall i, (i < n)%nat -> f i = 0.
Proof.
  induction n as [|n IH]; intros Hf Hsum i Hi; [lia|].
  rewrite rsum_S in Hsum.
  assert (0 <= f n) by (apply Hf; lia).
  assert (0 <= Torch.ssum (tolist1 n f))
    by (apply rsum_nonneg; intros; apply Hf; lia).
  destruct (Nat.eq_dec i n) as [-> | Hne]; [lra|].
  apply IH; [intros; apply Hf; lia | lra | lia].
Qed.

Lemma sum_squares_nonneg (p : Tensor2 R) (i : nat) :
  0 <= Torch.ssum (tolist1 (ncols p) (fun j => at2 p i j * at2 p i j)).
Proof.
  apply rsum_nonneg. intros j _. apply Rle_0_sqr.
Qed.

Lemma row_norm_nonneg (p : Tensor2 R) (i : nat) : 0 <= Torch.row_norm p i.
Proof.
  unfold Torch.row_norm. apply sqrt_pos.
Qed.

Lemma row_norm_zero (p : Tensor2 R) (i : nat) :
  Torch.row_norm p i = 0 ->
  forall j, (j < ncols p)%nat -> at2 p i j = 0.
Proof.
  intros Hn j Hj.
  apply sqrt_eq_0 in Hn; [| apply sum_squares_nonneg].
  apply Rsqr_0_uniq.
  apply (rsum_nonneg_zero (ncols p) (fun j => at2 p i j * at2 p i j));
    [intros; apply Rle_0_sqr | exact Hn | exact Hj].
Qed.

Lemma lit_1e_9_pos : 0 < lit_1e_9.
Proof. cbn. lra. Qed.

Lemma lit_1e_12_pos : 0 < lit_1e_12.
Proof. cbn. lra. Qed.

Lemma norm_denominator_pos (p : Tensor2 R) (i : nat) :
  0 < norm_denominator p i.
Proof.
  unfold norm_denominator. cbn [sclamp_min RealScalar].
  pose proof lit_1e_12_pos.
  pose proof (Rmax_r (Torch.row_norm p i) lit_1e_12). lra.
Qed.

Lemma pooled_denominator_pos (e : Tensor3 R) (m : Tensor2 Z) (b : nat) :
  0 < pooled_denominator e m b.
Proof.
  unfold pooled_denominator. cbn [sclamp_min RealScalar].
  pose proof lit_1e_9_pos.
  match goal with |- _ < Rmax ?x _ => pose proof (Rmax_r x lit_1e_9) end.
  lra.
Qed.

(** The L2 norm of a normalised row is the norm of the row over its
    floored norm. *)
Lemma row_norm_normalized (p q : Tensor2 R) (i : nat) :
  Torch.normalize p = Ok q -> (i < nrows p)%nat ->
  Torch.row_norm q i = Torch.row_norm p i / norm_denominator p i.
Proof.
  intros Hrun Hi.
  destruct (normalize_ok p) as (q' & Hrun' & Hsz & Hat).
  rewrite Hrun in Hrun'. injection Hrun' as <-.
  unfold size2 in Hsz. injection Hsz as Hrows Hcols.
  pose proof (norm_denominator_pos p i) as Hc.
  set (c := norm_denominator p i) in *.
  unfold Torch.row_norm at 1. rewrite Hcols.
  rewrite (tolist1_ext _ _ (fun j => (at2 p i j * at2 p i j) * (/ c * / c))).
  - rewrite rsum_scale.
    rewrite sqrt_mult_alt by apply sum_squares_nonneg.
    rewrite sqrt_square by (left; now apply Rinv_0_lt_compat).
    reflexivity.
  - intros j Hj. rewrite Hat by assumption.
    cbn [sdiv smul RealScalar]. fold c. unfold Rdiv. ring.
Qed.

End RealSums.

Section RealClaims.
Local Open Scope R_scope.

(** C8. For a row whose mask elements are all 1, the pooled row is the
    plain arithmetic mean of the L token embeddings of the row. *)
Theorem all_ones_row_is_plain_mean
        (out : ModelOutput R) (m : Tensor2 Z) (b : nat) :
  let e := last_hidden_state out in
  nrows m = dim0 e -> ncols m = dim1 e ->
  (b < dim0 e)%nat -> (0 < dim1 e)%nat ->
  (forall l, (l < dim1 e)%nat -> at2 m b l = 1%Z) ->
  exists pooled,
    mean_pooling out m = Ok pooled /\
    forall d, (d < dim2 e)%nat ->
      at2 pooled b d
      = arithmetic_mean (tolist1 (dim1 e) (fun l => at3 e b l d)).
Proof.
  intros e Hb Hl Hrow Hpos Hones.
  destruct (mean_pooling_same_shape out m Hb Hl) as (pooled & Hrun & _ & Hat).
  exists pooled. split; [assumption|].
  intros d Hd. fold e in Hat. rewrite Hat by assumption.
  unfold spec_pooled, arithmetic_mean. cbn [sdiv smul sclamp_min of_int RealScalar].
  rewrite tolist1_length.
  rewrite (tolist1_ext _ (fun l => at3 e b l d * IZR (at2 m b l))
                       (fun l => at3 e b l d))
    by (intros l Hlt; rewrite Hones by assumption; lra).
  rewrite (tolist1_ext _ (fun l => IZR (at2 m b l)) (fun _ => 1))
    by (intros l Hlt; now rewrite Hones).
  rewrite rsum_ones.
  rewrite Rmax_left; [reflexivity|].
  pose proof lit_1e_9_pos. cbn in *.
  assert (1 <= INR (dim1 e)) by (apply (le_INR 1); lia).
  lra.
Qed.

(** C3. Masked-out positions have no influence: two embedding batches
    that agree wherever the mask of row [b] is 1 give the same pooled
    row [b], whatever they hold where the mask is 0. *)
Theorem masked_positions_have_no_influence
        (out1 out2 : ModelOutput R) (m : Tensor2 Z) (b : nat) :
  let e1 := last_hidden_state out1 in
  let e2 := last_hidden_state out2 in
  size3 e1 = size3 e2 ->
  nrows m = dim0 e1 -> ncols m = dim1 e1 ->
  (b < dim0 e1)%nat ->
  (forall l, (l < dim1 e1)%nat -> at2 m b l = 0%Z \/ at2 m b l = 1%Z) ->
  (forall l d, (l < dim1 e1)%nat -> (d < dim2 e1)%nat ->
               at2 m b l = 1%Z -> at3 e1 b l d = at3 e2 b l d) ->
  exists pooled1 pooled2,
    mean_pooling out1 m = Ok pooled1 /\
    mean_pooling out2 m = Ok pooled2 /\
    forall d, (d < dim2 e1)%nat -> at2 pooled1 b d = at2 pooled2 b d.
Proof.
  intros e1 e2 Hsize Hb Hl Hrow Hmask Hagree.
  unfold size3 in Hsize. injection Hsize as H0 H1 H2.
  destruct (mean_pooling_same_shape out1 m Hb Hl) as (p1 & Hrun1 & _ & Hat1).
  destruct (mean_pooling_same_shape out2 m) as (p2 & Hrun2 & _ & Hat2);
    [fold e2; congruence | fold e2; congruence |].
  exists p1, p2. repeat split; try assumption.
  intros d Hd. fold e1 in Hat1. fold e2 in Hat2.
  rewrite Hat1, Hat2 by lia.
  unfold spec_pooled. rewrite <- H1. do 2 f_equal.
  apply tolist1_ext. intros l Hlt.
  cbn [smul of_int RealScalar].
  destruct (Hmask l Hlt) as [Hz | Ho].
  - rewrite Hz. lra.
  - now rewrite (Hagree l d Hlt Hd Ho).
Qed.

(** C4, as the code has it. For a pooled row whose L2 norm is at least
    the floor 1e-12, [F.normalize] returns the row divided by its own L2
    norm, and the L2 norm of the normalised row is 1. *)
Theorem normalized_row_has_unit_norm (p : Tensor2 R) (b : nat) :
  (b < nrows p)%nat ->
  lit_1e_12 <= Torch.row_norm p b ->
  exists q,
    Torch.normalize p = Ok q /\
    (forall d, (d < ncols p)%nat ->
               at2 q b d = at2 p b d / Torch.row_norm p b) /\
    Torch.row_norm q b = 1.
Proof.
  intros Hb Hbig.
  destruct (normalize_ok p) as (q & Hrun & _ & Hat).
  assert (Hden : norm_denominator p b = Torch.row_norm p b).
  { unfold norm_denominator. cbn [sclamp_min RealScalar].
    now apply Rmax_left. }
  exists q. split; [assumption|]. split.
  - intros d Hd. rewrite Hat by assumption. now rewrite Hden.
  - rewrite (row_norm_normalized p q b Hrun Hb), Hden.
    pose proof lit_1e_12_pos. field. lra.
Qed.

Lemma normalize_row_idempotent (p q q' : Tensor2 R) (b : nat) :
  Torch.normalize p = Ok q -> Torch.normalize q = Ok q' ->
  (b < nrows p)%nat ->
  Torch.row_norm p b = 0 \/ lit_1e_12 <= Torch.row_norm p b ->
  forall d, (d < ncols p)%nat -> at2 q' b d = at2 q b d.
Proof.
  intros Hrun Hrun' Hb Hnorm d Hd.
  destruct (normalize_ok p) as (q0 & Hq0 & Hsz & Hat).
  rewrite Hrun in Hq0. injection Hq0 as <-.
  destruct (normalize_ok q) as (q1 & Hq1 & Hsz' & Hat').
  rewrite Hrun' in Hq1. injection Hq1 as <-.
  unfold size2 in Hsz. injection Hsz as Hrows Hcols.
  rewrite Hat' by lia.
  pose proof lit_1e_12_pos as Heps.
  pose proof (norm_denominator_pos p b) as Hc.
  cbn [sdiv RealScalar].
  destruct Hnorm as [Hzero | Hbig].
  - rewrite Hat by assumption.
    rewrite (row_norm_zero p b Hzero d Hd).
    cbn [sdiv RealScalar]. unfold Rdiv. now rewrite !Rmult_0_l.
  - assert (Hone : norm_denominator q b = 1).
    { unfold norm_denominator at 1.
      rewrite (row_norm_normalized p q b Hrun Hb).
      assert (Hden : norm_denominator p b = Torch.row_norm p b).
      { unfold norm_denominator. cbn [sclamp_min RealScalar].
        now apply Rmax_left. }
      rewrite Hden. cbn [sclamp_min RealScalar].
      replace (Torch.row_norm p b / Torch.row_norm p b) with 1
        by (field; lra).
      apply Rmax_left. cbn. lra. }
    rewrite Hone. field.
Qed.

(** C10, as the code has it. [F.normalize] is idempotent on every matrix
    whose rows have an L2 norm that is either 0 or at least the floor
    1e-12: normalising the normalised matrix gives the same matrix. *)
Theorem normalize_idempotent (p : Tensor2 R) :
  (forall b, (b < nrows p)%nat ->
             Torch.row_norm p b = 0 \/ lit_1e_12 <= Torch.row_norm p b) ->
  exists q q',
    Torch.normalize p = Ok q /\
    Torch.normalize q = Ok q' /\
    same2 q' q.
Proof.
  intros Hrows.
  destruct (normalize_ok p) as (q & Hrun & Hsz & _).
  destruct (normalize_ok q) as (q' & Hrun' & Hsz' & _).
  exists q, q'. repeat split; try assumption.
  intros b d Hb Hd.
  unfold size2 in Hsz, Hsz'.
  injection Hsz as Hr Hc. injection Hsz' as Hr' Hc'.
  apply (normalize_row_idempotent p q q' b Hrun Hrun'); try lia.
  apply Hrows. lia.
Qed.

(** Below the floor the two amended statements stop: a row of norm under
    1e-12 is divided by the floor, and a nonzero one is changed again by a
    second normalisation. *)
Lemma row_norm_below_floor (p q : Tensor2 R) (b : nat) :
  Torch.normalize p = Ok q -> (b < nrows p)%nat ->
  Torch.row_norm p b < lit_1e_12 ->
  Torch.row_norm q b = Torch.row_norm p b / lit_1e_12 /\
  Torch.row_norm q b < 1.
Proof.
  intros Hrun Hb Hsmall.
  pose proof lit_1e_12_pos as Heps.
  assert (Hden : norm_denominator p b = lit_1e_12).
  { unfold norm_denominator. cbn [sclamp_min RealScalar].
    apply Rmax_right. lra. }
  rewrite (row_norm_normalized p q b Hrun Hb), Hden.
  split; [reflexivity|].
  apply (Rmult_lt_reg_r lit_1e_12); [assumption|].
  unfold Rdiv. rewrite Rmult_assoc, Rinv_l by lra. lra.
Qed.

Lemma normalize_row_changes_below_floor (p q q' : Tensor2 R) (b : nat) :
  Torch.normalize p = Ok q -> Torch.normalize q = Ok q' ->
  (b < nrows p)%nat ->
  0 < Torch.row_norm p b < lit_1e_12 ->
  ~ (forall d, (d < ncols p)%nat -> at2 q' b d = at2 q b d).
Proof.
  intros Hrun Hrun' Hb [Hpos Hsmall] Hsame.
  destruct (normalize_ok p) as (q0 & Hq0 & Hsz & Hat).
  rewrite Hrun in Hq0. injection Hq0 as <-.
  destruct (normalize_ok q) as (q1 & Hq1 & _ & Hat').
  rewrite Hrun' in Hq1. injection Hq1 as <-.
  unfold size2 in Hsz. injection Hsz as Hrows Hcols.
  pose proof lit_1e_12_pos as Heps.
  assert (Heps1 : lit_1e_12 < 1) by (cbn; lra).
  destruct (row_norm_below_floor p q b Hrun Hb Hsmall) as [_ Hq].
  pose proof (norm_denominator_pos q b) as Hc.
  assert (Hc1 : norm_denominator q b < 1).
  { unfold norm_denominator. cbn [sclamp_min RealScalar].
    apply Rmax_lub_lt; assumption. }
  assert (Hden : norm_denominator p b = lit_1e_12).
  { unfold norm_denominator. cbn [sclamp_min RealScalar].
    apply Rmax_right. lra. }
  assert (Hzero : Torch.row_norm p b = 0); [|lra].
  unfold Torch.row_norm. rewrite rsum_zero; [apply sqrt_0|].
  intros d Hd. cbn [smul RealScalar].
  specialize (Hsame d Hd). rewrite Hat' in Hsame by lia.
  cbn [sdiv RealScalar] in Hsame.
  assert (Hqd : at2 q b d = 0).
  { apply (Rmult_eq_compat_r (norm_denominator q b)) in Hsame.
    unfold Rdiv in Hsame. rewrite Rmult_assoc, Rinv_l, Rmult_1_r in Hsame by lra.
    assert (at2 q b d * (1 - norm_denominator q b) = 0) by lra.
    destruct (Rmult_integral _ _ H) as [Hz | Hz]; [assumption | lra]. }
  rewrite Hat, Hden in Hqd by assumption.
  cbn [sdiv RealScalar] in Hqd. unfold Rdiv in Hqd.
  destruct (Rmult_integral _ _ Hqd) as [Hz | Hz]; [rewrite Hz; ring|].
  pose proof (Rinv_0_lt_compat _ Heps). lra.
Qed.

End RealClaims.

(** ** The fully padded row *)

Section PaddedRowReal.
Local Open Scope R_scope.

Lemma fully_padded_row_real (out : ModelOutput R) (m : Tensor2 Z) (b : nat) :
  let e := last_hidden_state out in
  nrows m = dim0 e -> ncols m = dim1 e -> (b < dim0 e)%nat ->
  (forall l, (l < dim1 e)%nat -> at2 m b l = 0%Z) ->
  exists pooled normalized,
    mean_pooling out m = Ok pooled /\
    Torch.normalize pooled = Ok normalized /\
    pooled_denominator e m b = lit_1e_9 /\
    norm_denominator pooled b = lit_1e_12 /\
    forall d, (d < dim2 e)%nat ->
      at2 pooled b d = 0 /\ at2 normalized b d = 0.
Proof.
  intros e Hb Hl Hrow Hzero.
  destruct (mean_pooling_same_shape out m Hb Hl) as (pooled & Hrun & Hsz & Hat).
  destruct (normalize_ok pooled) as (normalized & Hrun' & _ & Hat').
  fold e in Hsz, Hat. unfold size2 in Hsz. injection Hsz as Hrows Hcols.
  pose proof lit_1e_9_pos as Heps9. pose proof lit_1e_12_pos as Heps12.
  assert (Hpooled : forall d, (d < dim2 e)%nat -> at2 pooled b d = 0).
  { intros d Hd. rewrite Hat by assumption. unfold spec_pooled.
    rewrite rsum_zero; [cbn [sdiv RealScalar]; unfold Rdiv; ring|].
    intros l Hlt. cbn [smul of_int RealScalar].
    rewrite Hzero by assumption. ring. }
  assert (Hnorm : Torch.row_norm pooled b = 0).
  { unfold Torch.row_norm. rewrite rsum_zero; [apply sqrt_0|].
    intros j Hj. cbn [smul RealScalar].
    rewrite Hpooled by lia. ring. }
  exists pooled, normalized. repeat split; try assumption.
  - unfold pooled_denominator. rewrite rsum_zero.
    + cbn [sclamp_min RealScalar]. apply Rmax_right. lra.
    + intros l Hlt. unfold mask_weight.
      rewrite (bidx_lt _ b), (bidx_lt _ l) by lia.
      now rewrite Hzero.
  - unfold norm_denominator. rewrite Hnorm.
    cbn [sclamp_min RealScalar]. apply Rmax_right. lra.
  - now apply Hpooled.
  - rewrite Hat' by lia. rewrite Hpooled by assumption.
    cbn [sdiv RealScalar]. unfold Rdiv. ring.
Qed.

End PaddedRowReal.

Section Binary32Rows.
Import Binary32.

Lemma fsum_S (n : nat) (f : nat -> spec_float) :
  Torch.ssum (tolist1 (S n) f) = sadd (Torch.ssum (tolist1 n f)) (f n).
Proof.
  rewrite tolist1_S. unfold Torch.ssum. now rewrite fold_left_app.
Qed.

Lemma fsum_zero (n : nat) (f : nat -> spec_float) :
  (forall i, i < n -> is_zero (f i) = true) ->
  is_zero (Torch.ssum (tolist1 n f)) = true.
Proof.
  induction n as [|n IH]; intros Hf; [reflexivity|].
  rewrite fsum_S.
  specialize (IH (fun i Hi => Hf i (Nat.lt_lt_succ_r _ _ Hi))).
  specialize (Hf n (Nat.lt_succ_diag_r n)).
  destruct (Torch.ssum (tolist1 n f)) as [s1| | |]; try discriminate.
  destruct (f n) as [s2| | |]; try discriminate.
  now destruct s1, s2.
Qed.

Lemma fmul_finite_zero (x y : spec_float) :
  is_finite x = true -> is_zero y = true -> is_zero (smul x y) = true.
Proof.
  destruct x, y; try discriminate; reflexivity.
Qed.

Lemma fclamp_zero_1e_9 (x : spec_float) :
  is_zero x = true -> sclamp_min x lit_1e_9 = f1e_9.
Proof.
  destruct x; try discriminate. reflexivity.
Qed.

Lemma fclamp_zero_1e_12 (x : spec_float) :
  is_zero x = true -> sclamp_min x lit_1e_12 = f1e_12.
Proof.
  destruct x; try discriminate. reflexivity.
Qed.

Lemma fdiv_zero (x : spec_float) (m : positive) (ex : Z) :
  is_zero x = true -> is_zero (sdiv x (S754_finite false m ex)) = true.
Proof.
  destruct x; try discriminate. reflexivity.
Qed.

Lemma fsqrt_zero (x : spec_float) :
  is_zero x = true -> is_zero (ssqrt x) = true.
Proof.
  destruct x; try discriminate. reflexivity.
Qed.

Lemma is_zero_finite (x : spec_float) :
  is_zero x = true -> is_finite x = true.
Proof.
  destruct x; try discriminate; reflexivity.
Qed.

Lemma fully_padded_row_binary32
      (out : ModelOutput spec_float) (m : Tensor2 Z) (b : nat) :
  let e := last_hidden_state out in
  nrows m = dim0 e -> ncols m = dim1 e -> b < dim0 e ->
  (forall l, l < dim1 e -> at2 m b l = 0%Z) ->
  (forall l d, l < dim1 e -> d < dim2 e -> is_finite (at3 e b l d) = true) ->
  exists pooled normalized,
    mean_pooling out m = Ok pooled /\
    Torch.normalize pooled = Ok normalized /\
    pooled_denominator e m b = f1e_9 /\
    norm_denominator pooled b = f1e_12 /\
    forall d, d < dim2 e ->
      is_zero (at2 pooled b d) = true /\ is_zero (at2 normalized b d) = true.
Proof.
  intros e Hb Hl Hrow Hzero Hfin.
  destruct (mean_pooling_same_shape out m Hb Hl) as (pooled & Hrun & Hsz & Hat).
  destruct (normalize_ok pooled) as (normalized & Hrun' & _ & Hat').
  fold e in Hsz, Hat. unfold size2 in Hsz. injection Hsz as Hrows Hcols.
  assert (Hmask : is_zero (Torch.ssum (tolist1 (dim1 e)
                    (fun l => of_int (at2 m b l)))) = true).
  { apply fsum_zero. intros l Hlt. now rewrite Hzero. }
  assert (Hpooled : forall d, d < dim2 e -> is_zero (at2 pooled b d) = true).
  { intros d Hd. rewrite Hat by assumption. unfold spec_pooled.
    rewrite (fclamp_zero_1e_9 _ Hmask).
    apply fdiv_zero, fsum_zero. intros l Hlt.
    apply fmul_finite_zero; [now apply Hfin | now rewrite Hzero]. }
  assert (Hnorm : is_zero (Torch.row_norm pooled b) = true).
  { unfold Torch.row_norm. apply fsqrt_zero, fsum_zero. intros j Hj.
    apply fmul_finite_zero; [apply is_zero_finite|]; apply Hpooled; lia. }
  assert (Hden : norm_denominator pooled b = f1e_12).
  { unfold norm_denominator. now apply fclamp_zero_1e_12. }
  exists pooled, normalized. repeat split; try assumption.
  - unfold pooled_denominator.
    apply fclamp_zero_1e_9, fsum_zero. intros l Hlt. unfold mask_weight.
    rewrite (bidx_lt _ b), (bidx_lt _ l) by lia.
    now rewrite Hzero.
  - now apply Hpooled.
  - rewrite Hat' by lia. rewrite Hden.
    apply fdiv_zero. now apply Hpooled.
Qed.

(** Masked-out positions in binary32: with finite embeddings under the
    padding, two batches that agree wherever the mask is 1 give pooled rows
    that are the same numbers. *)
Lemma fadd_same (x x' t t' : spec_float) :
  same_number x x' -> same_number t t' ->
  same_number (sadd x t) (sadd x' t').
Proof.
  intros [-> | [Hx Hx']] [-> | [Ht Ht']].
  - now left.
  - destruct x' as [[]|[]| |[] ? ?], t as [[]| | |], t' as [[]| | |];
      try discriminate; cbn; (now left) || (now right).
  - destruct x as [[]| | |], x' as [[]| | |], t' as [[]|[]| |[] ? ?];
      try discriminate; cbn; (now left) || (now right).
  - destruct x as [[]| | |], x' as [[]| | |], t as [[]| | |], t' as [[]| | |];
      try discriminate; cbn; (now left) || (now right).
Qed.

Lemma fsum_same (n : nat) (f g : nat -> spec_float) :
  (forall i, i < n -> same_number (f i) (g i)) ->
  same_number (Torch.ssum (tolist1 n f)) (Torch.ssum (tolist1 n g)).
Proof.
  induction n as [|n IH]; intros Hfg; [now left|].
  rewrite !fsum_S. apply fadd_same.
  - apply IH. intros i Hi. apply Hfg. lia.
  - apply Hfg. lia.
Qed.

Lemma fdiv_same (x x' c : spec_float) :
  same_number x x' -> same_number (sdiv x c) (sdiv x' c).
Proof.
  intros [-> | [Hx Hx']]; [now left|].
  destruct x as [[]| | |], x' as [[]| | |], c as [[]|[]| |[] ? ?];
    try discriminate; cbn; (now left) || (now right).
Qed.

Lemma masked_positions_binary32
      (out1 out2 : ModelOutput spec_float) (m : Tensor2 Z) (b : nat) :
  let e1 := last_hidden_state out1 in
  let e2 := last_hidden_state out2 in
  size3 e1 = size3 e2 ->
  nrows m = dim0 e1 -> ncols m = dim1 e1 -> b < dim0 e1 ->
  (forall l, l < dim1 e1 -> at2 m b l = 0%Z \/ at2 m b l = 1%Z) ->
  (forall l d, l < dim1 e1 -> d < dim2 e1 ->
               at2 m b l = 1%Z -> at3 e1 b l d = at3 e2 b l d) ->
  (forall l d, l < dim1 e1 -> d < dim2 e1 -> at2 m b l = 0%Z ->
               is_finite (at3 e1 b l d) = true /\
               is_finite (at3 e2 b l d) = true) ->
  exists pooled1 pooled2,
    mean_pooling out1 m = Ok pooled1 /\
    mean_pooling out2 m = Ok pooled2 /\
    forall d, d < dim2 e1 -> same_number (at2 pooled1 b d) (at2 pooled2 b d).
Proof.
  intros e1 e2 Hsize Hb Hl Hrow Hmask Hagree Hfin.
  unfold size3 in Hsize. injection Hsize as H0 H1 H2.
  destruct (mean_pooling_same_shape out1 m Hb Hl) as (p1 & Hrun1 & _ & Hat1).
  destruct (mean_pooling_same_shape out2 m) as (p2 & Hrun2 & _ & Hat2);
    [fold e2; congruence | fold e2; congruence |].
  exists p1, p2. repeat split; try assumption.
  intros d Hd. fold e1 in Hat1. fold e2 in Hat2.
  rewrite Hat1, Hat2 by lia.
  unfold spec_pooled. rewrite <- H1.
  apply fdiv_same, fsum_same. intros l Hlt.
  destruct (Hmask l Hlt) as [Hz | Ho].
  - right. rewrite Hz.
    destruct (Hfin l d Hlt Hd Hz) as [Hf1 Hf2].
    split; now apply fmul_finite_zero.
  - left. now rewrite (Hagree l d Hlt Hd Ho).
Qed.

End Binary32Rows.

(** C2. For a row whose mask elements are all zero, pooling followed by
    normalisation raises nothing and gives an all-zero row: both divisions
    are by the floor itself (1e-9, then 1e-12), never by zero.  This holds
    in exact arithmetic, and in binary32 for finite token embeddings, where
    every element of the row is a zero, hence neither NaN nor an infinity. *)
Theorem fully_padded_row_is_zero (m : Tensor2 Z) (b : nat) :
  b < nrows m ->
  (forall l, l < ncols m -> at2 m b l = 0%Z) ->
  (forall out : ModelOutput R,
      let e := last_hidden_state out in
      nrows m = dim0 e -> ncols m = dim1 e ->
      exists pooled normalized,
        mean_pooling out m = Ok pooled /\
        Torch.normalize pooled = Ok normalized /\
        pooled_denominator e m b = lit_1e_9 /\
        norm_denominator pooled b = lit_1e_12 /\
        forall d, d < dim2 e ->
          at2 pooled b d = 0%R /\ at2 normalized b d = 0%R)
  /\
  (forall out : ModelOutput spec_float,
      let e := last_hidden_state out in
      nrows m = dim0 e -> ncols m = dim1 e ->
      (forall l d, l < dim1 e -> d < dim2 e ->
                   Binary32.is_finite (at3 e b l d) = true) ->
      exists pooled normalized,
        mean_pooling out m = Ok pooled /\
        Torch.normalize pooled = Ok normalized /\
        pooled_denominator e m b = Binary32.f1e_9 /\
        norm_denominator pooled b = Binary32.f1e_12 /\
        forall d, d < dim2 e ->
          Binary32.is_zero (at2 pooled b d) = true /\
          Binary32.is_zero (at2 normalized b d) = true).
Proof.
  intros Hrow Hzero. split.
  - intros out e Hb Hl.
    apply fully_padded_row_real; try assumption; fold e.
    + lia.
    + intros l Hlt. apply Hzero. lia.
  - intros out e Hb Hl Hfin.
    apply fully_padded_row_binary32; try assumption; fold e.
    + lia.
    + intros l Hlt. apply Hzero. lia.
Qed.

(** ** The scenarios of the specification, run in binary32 *)

Section Scenarios.
Import Examples.
Local Open Scope Z_scope.

Example scenario_all_tokens :
  pool_then_normalize (output [[[1; 0]; [3; 0]]]) (mask [[1; 1]])
  = Ok ([[float32 2; float32 0]], [[float32 1; float32 0]]).
Proof. vm_compute. reflexivity. Qed.

Example scenario_second_token_padded :
  pool_then_normalize (output [[[1; 0]; [3; 0]]]) (mask [[1; 0]])
  = Ok ([[float32 1; float32 0]], [[float32 1; float32 0]]).
Proof. vm_compute. reflexivity. Qed.

Example scenario_fully_padded :
  pool_then_normalize (output [[[5; 5]]]) (mask [[0]])
  = Ok ([[float32 0; float32 0]], [[float32 0; float32 0]]).
Proof. vm_compute. reflexivity. Qed.

(** An infinite embedding at a padded position is not a finite input: its
    product with the mask element 0 is NaN. *)
Example padded_infinity_is_nan :
  pool_then_normalize
    (mkModelOutput (tensor3 szero [[[S754_infinity false]]]) (elements2 []))
    (mask [[0]])
  = Ok ([[S754_nan]], [[S754_nan]]).
Proof. vm_compute. reflexivity. Qed.

(** Normalising twice a row below the floor, in binary32: 2^-50 becomes
    about 8.9e-4 and then 1. *)
Example tiny_row_binary32 :
  (let* q := Torch.normalize (tensor2 szero [[pow2 (-50)]]) in
   let* q' := Torch.normalize q in
   Ok (tolist2 q, tolist2 q'))
  = Ok ([[S754_finite false 15258789 (-34)]], [[float32 1]]).
Proof. vm_compute. reflexivity. Qed.

End Scenarios.

(** ** Instances of the properties, and the inputs on which the
    specification and the code part *)

Section Instances.
Import Examples.
Local Open Scope Z_scope.

Lemma mean_pooling_weighted_mean_witness :
  let out : ModelOutput spec_float := output [[[1; 0]; [3; 0]]] in
  let m := mask [[1; 1]] in
  exists pooled,
    mean_pooling out m = Ok pooled /\
    size2 pooled = (1%nat, 2%nat) /\
    forall b d, (b < 1)%nat -> (d < 2)%nat ->
      at2 pooled b d = spec_pooled (last_hidden_state out) m b d.
Proof.
  apply (mean_pooling_weighted_mean (output [[[1; 0]; [3; 0]]]) (mask [[1; 1]]));
    [reflexivity | reflexivity |].
  intros b l Hb Hl. cbn in Hb, Hl.
  destruct b as [|b]; [|lia].
  destruct l as [|[|l]]; [right; reflexivity | right; reflexivity | lia].
Defined.

(** A mask value of 2 is not rejected: the token is counted twice. *)
Lemma invalid_mask_is_not_rejected :
  let out : ModelOutput spec_float := output [[[3]]] in
  let m := mask [[2]] in
  at2 m 0 0 <> 0 /\ at2 m 0 0 <> 1 /\
  tolist_result (mean_pooling out m) = Ok [[float32 3]].
Proof.
  cbn zeta. split; [discriminate | split; [discriminate|]].
  vm_compute. reflexivity.
Qed.

Lemma mean_pooling_accepts_any_mask_witness :
  let out : ModelOutput spec_float := output [[[3]; [5]]] in
  let m := mask [[2; -1]] in
  exists pooled,
    mean_pooling out m = Ok pooled /\
    forall b d, (b < 1)%nat -> (d < 1)%nat ->
      at2 pooled b d
      = sdiv (Torch.ssum (tolist1 2
                 (fun l => smul (at3 (last_hidden_state out) b l d)
                                (of_int (at2 m b l)))))
             (sclamp_min (Torch.ssum (tolist1 2
                 (fun l => of_int (at2 m b l)))) lit_1e_9).
Proof.
  apply (mean_pooling_accepts_any_mask (output [[[3]; [5]]]) (mask [[2; -1]]));
    reflexivity.
Defined.

(** A mask with one row is broadcast over a batch of two: the batch sizes
    differ and nothing is raised. *)
Lemma singleton_mask_is_broadcast :
  let out : ModelOutput spec_float := output [[[3]]; [[4]]] in
  let m := mask [[1]] in
  nrows m <> dim0 (last_hidden_state out) /\
  tolist_result (mean_pooling out m) = Ok [[float32 3]; [float32 4]].
Proof.
  cbn zeta. split; [discriminate|].
  vm_compute. reflexivity.
Qed.

Lemma mean_pooling_shape_error_witness :
  mean_pooling (T:=spec_float) (output [[[3]]; [[4]]]) (mask [[1]; [1]; [1]])
  = Raise RuntimeError
  /\
  exists pooled,
    mean_pooling (T:=spec_float) (output [[[3]]; [[4]]]) (mask [[1]]) = Ok pooled /\
    size2 pooled = (2%nat, 1%nat).
Proof.
  split.
  - apply (mean_pooling_shape_error (output [[[3]]; [[4]]]) (mask [[1]; [1]; [1]])).
    left. cbn. lia.
  - apply (mean_pooling_shape_error (output [[[3]]; [[4]]]) (mask [[1]])).
    cbn. lia.
Defined.

Lemma predict_fn_returns_first_row_witness :
  let model : @Model spec_float := fixed_model [[[1; 0]; [3; 0]]; [[0; 2]; [0; 4]]] in
  let tokenizer := fixed_tokenizer [[1; 1]; [1; 1]] in
  let data : gmap string pyvalue := {[ "inputs" := PyList ["first"; "second"]%string ]} in
  exists pooled normalized,
    mean_pooling (output [[[1; 0]; [3; 0]]; [[0; 2]; [0; 4]]])
                 (mask [[1; 1]; [1; 1]]) = Ok pooled /\
    Torch.normalize pooled = Ok normalized /\
    size2 normalized = (2%nat, 2%nat) /\
    snd (predict_fn data (model, tokenizer))
    = Ok {[ "vectors" := tolist1 2 (fun d => at2 normalized 0 d) ]}.
Proof.
  apply (predict_fn_returns_first_row
           (fixed_model [[[1; 0]; [3; 0]]; [[0; 2]; [0; 4]]])
           (fixed_tokenizer [[1; 1]; [1; 1]])
           {[ "inputs" := PyList ["first"; "second"]%string ]}
           (mkBatchEncoding (mask [[1; 1]; [1; 1]]) (mask [[1; 1]; [1; 1]]))
           (output [[[1; 0]; [3; 0]]; [[0; 2]; [0; 4]]]));
    try reflexivity.
  cbn. lia.
Defined.

(** Two sentences in, one vector out. *)
Example predict_fn_two_sentences :
  predict_fn (T:=spec_float)
             {[ "inputs" := PyList ["first"; "second"]%string; "id" := PyInt 7 ]}
             (fixed_model [[[1; 0]; [3; 0]]; [[0; 2]; [0; 4]]],
              fixed_tokenizer [[1; 1]; [1; 1]])
  = ({[ "id" := PyInt 7 ]}, Ok {[ "vectors" := [float32 1; float32 0] ]}).
Proof. vm_compute. reflexivity. Qed.

End Instances.

Section RealInstances.
Import Examples.
Local Open Scope R_scope.

Lemma row_norm_one_column (p : Tensor2 R) (i : nat) :
  ncols p = 1%nat -> 0 <= at2 p i 0 -> Torch.row_norm p i = at2 p i 0.
Proof.
  intros Hcols Hpos. unfold Torch.row_norm. rewrite Hcols.
  rewrite rsum_S, rsum_0. cbn [smul RealScalar].
  rewrite Rplus_0_l. now apply sqrt_square.
Qed.

Lemma fully_padded_row_is_zero_witness :
  let m := mask [[0%Z]] in
  (exists pooled normalized,
      mean_pooling (T:=R) (output [[[5%Z; 5%Z]]]) m = Ok pooled /\
      Torch.normalize pooled = Ok normalized /\
      pooled_denominator (elements3 [[[5%Z; 5%Z]]]) m 0 = / 1000000000 /\
      norm_denominator pooled 0 = / 1000000000000 /\
      forall d, (d < 2)%nat ->
        at2 pooled 0 d = 0 /\ at2 normalized 0 d = 0)
  /\
  (exists pooled normalized,
      mean_pooling (T:=spec_float) (output [[[5%Z; 5%Z]]]) m = Ok pooled /\
      Torch.normalize pooled = Ok normalized /\
      pooled_denominator (elements3 [[[5%Z; 5%Z]]]) m 0 = Binary32.f1e_9 /\
      norm_denominator pooled 0 = Binary32.f1e_12 /\
      forall d, (d < 2)%nat ->
        Binary32.is_zero (at2 pooled 0 d) = true /\
        Binary32.is_zero (at2 normalized 0 d) = true).
Proof.
  assert (Hrow : (0 < nrows (mask [[0%Z]]))%nat) by (cbn; lia).
  assert (Hzero : forall l, (l < ncols (mask [[0%Z]]))%nat ->
                            at2 (mask [[0%Z]]) 0 l = 0%Z).
  { intros l Hl. cbn in Hl. destruct l as [|l]; [reflexivity | lia]. }
  destruct (fully_padded_row_is_zero (mask [[0%Z]]) 0 Hrow Hzero) as [HR HF].
  split.
  - apply (HR (output [[[5%Z; 5%Z]]])); reflexivity.
  - apply (HF (output [[[5%Z; 5%Z]]])); [reflexivity | reflexivity |].
    intros l d Hl Hd. cbn in Hl, Hd.
    destruct l as [|l]; [|lia].
    destruct d as [|[|d]]; [reflexivity | reflexivity | lia].
Defined.

Lemma masked_positions_have_no_influence_witness :
  let out1 : ModelOutput R := output [[[1; 0]; [3; 0]]]%Z in
  let out2 : ModelOutput R := output [[[1; 0]; [7; 9]]]%Z in
  let m := mask [[1; 0]]%Z in
  exists pooled1 pooled2,
    mean_pooling out1 m = Ok pooled1 /\
    mean_pooling out2 m = Ok pooled2 /\
    forall d, (d < 2)%nat -> at2 pooled1 0 d = at2 pooled2 0 d.
Proof.
  apply (masked_positions_have_no_influence
           (output [[[1; 0]; [3; 0]]]%Z) (output [[[1; 0]; [7; 9]]]%Z)
           (mask [[1; 0]]%Z) 0);
    try reflexivity.
  - cbn. lia.
  - intros l Hl. cbn in Hl.
    destruct l as [|[|l]]; [right; reflexivity | left; reflexivity | lia].
  - intros l d Hl Hd Hone. cbn in Hl, Hd.
    destruct l as [|[|l]]; [| discriminate Hone | lia].
    destruct d as [|[|d]]; [reflexivity | reflexivity | lia].
Defined.

Lemma all_ones_row_is_plain_mean_witness :
  let out : ModelOutput R := output [[[1; 0]; [3; 0]]]%Z in
  exists pooled,
    mean_pooling out (mask [[1; 1]]%Z) = Ok pooled /\
    forall d, (d < 2)%nat ->
      at2 pooled 0 d
      = arithmetic_mean (tolist1 2 (fun l => at3 (last_hidden_state out) 0 l d)).
Proof.
  apply (all_ones_row_is_plain_mean
           (output [[[1; 0]; [3; 0]]]%Z) (mask [[1; 1]]%Z) 0);
    try reflexivity.
  - cbn. lia.
  - cbn. lia.
  - intros l Hl. cbn in Hl.
    destruct l as [|[|l]]; [reflexivity | reflexivity | lia].
Defined.

Lemma normalized_row_has_unit_norm_witness :
  exists q,
    Torch.normalize (single 2) = Ok q /\
    (forall d, (d < 1)%nat ->
               at2 q 0 d = at2 (single 2) 0 d / Torch.row_norm (single 2) 0) /\
    Torch.row_norm q 0 = 1.
Proof.
  apply (normalized_row_has_unit_norm (single 2) 0).
  - cbn. lia.
  - rewrite row_norm_one_column; cbn; [lra | reflexivity | lra].
Defined.

(** A pooled row of norm 1e-13 is not zero, and its normalisation has norm
    0.1: it was divided by the floor, not by its norm. *)
Lemma row_below_floor_is_not_unit :
  Torch.row_norm tiny 0 <> 0 /\
  exists q,
    Torch.normalize tiny = Ok q /\
    at2 q 0 0 = 1 / 10 /\
    Torch.row_norm q 0 = 1 / 10 /\
    Torch.row_norm q 0 <> 1.
Proof.
  assert (Hnorm : Torch.row_norm tiny 0 = / 10000000000000)
    by (rewrite row_norm_one_column; cbn; [reflexivity | reflexivity | lra]).
  assert (Hden : norm_denominator tiny 0 = / 1000000000000).
  { unfold norm_denominator. rewrite Hnorm. cbn [sclamp_min lit_1e_12 RealScalar].
    apply Rmax_right. lra. }
  split; [rewrite Hnorm; lra|].
  destruct (normalize_ok tiny) as (q & Hrun & _ & Hat).
  exists q. split; [assumption|].
  assert (Hq : Torch.row_norm q 0 = 1 / 10).
  { rewrite (row_norm_normalized tiny q 0 Hrun) by (cbn; lia).
    rewrite Hnorm, Hden. lra. }
  repeat split.
  - rewrite Hat by (cbn; lia). rewrite Hden. cbn. lra.
  - exact Hq.
  - rewrite Hq. lra.
Qed.

Lemma normalize_idempotent_witness :
  exists q q',
    Torch.normalize (elements2 (T:=R) [[2]; [0]]%Z) = Ok q /\
    Torch.normalize q = Ok q' /\
    same2 q' q.
Proof.
  apply (normalize_idempotent (elements2 [[2]; [0]]%Z)).
  intros b Hb. cbn in Hb.
  destruct b as [|[|b]]; [right | left | lia].
  - rewrite row_norm_one_column; cbn; [lra | reflexivity | lra].
  - rewrite row_norm_one_column; cbn; [reflexivity | reflexivity | lra].
Defined.

(** Normalising the row of norm 1e-13 gives 0.1, and normalising that
    gives 1: the second application changes the result. *)
Lemma normalize_twice_below_floor :
  exists q q',
    Torch.normalize tiny = Ok q /\
    Torch.normalize q = Ok q' /\
    at2 q 0 0 = 1 / 10 /\
    at2 q' 0 0 = 1 /\
    ~ same2 q' q.
Proof.
  assert (Hnorm : Torch.row_norm tiny 0 = / 10000000000000)
    by (rewrite row_norm_one_column; cbn; [reflexivity | reflexivity | lra]).
  assert (Hden : norm_denominator tiny 0 = / 1000000000000).
  { unfold norm_denominator. rewrite Hnorm. cbn [sclamp_min lit_1e_12 RealScalar].
    apply Rmax_right. lra. }
  destruct (normalize_ok tiny) as (q & Hrun & Hsz & Hat).
  destruct (normalize_ok q) as (q' & Hrun' & Hsz' & Hat').
  unfold size2 in Hsz, Hsz'.
  injection Hsz as Hr Hc. injection Hsz' as Hr' Hc'.
  cbn in Hr, Hc.
  assert (Hq : at2 q 0 0 = 1 / 10).
  { rewrite Hat by (cbn; lia). rewrite Hden. cbn. lra. }
  assert (Hden' : norm_denominator q 0 = 1 / 10).
  { unfold norm_denominator.
    rewrite (row_norm_normalized tiny q 0 Hrun) by (cbn; lia).
    rewrite Hnorm, Hden. cbn [sclamp_min lit_1e_12 RealScalar].
    rewrite Rmax_left; lra. }
  assert (Hq' : at2 q' 0 0 = 1).
  { rewrite Hat' by lia. rewrite Hq, Hden'. cbn. lra. }
  exists q, q'. repeat split; try assumption.
  intros [_ Hsame].
  specialize (Hsame 0%nat 0%nat). rewrite Hq, Hq' in Hsame.
  assert (1 = 1 / 10) by (apply Hsame; lia). lra.
Qed.

End RealInstances.

(** * Further properties of the script and of the notebook *)

(** ** The version check of cell 3 *)

Section VersionCheck.
Import Stdlib.Strings.Ascii.
Import Notebook.

Ltac digit_cases d :=
  destruct d as [|[|[|[|[|[|[|[|[|[|d]]]]]]]]]]; try lia.

(** X1. A version "2.d.rest" with a one-digit minor passes the check exactly
    when the digit is 8 or 9: "2.8.0" and "2.9.1" pass although they are
    older than 2.75.0. *)
Theorem version_one_digit_minor (d : nat) (rest : string) :
  d < 10 ->
  version_assertion
    (String "2" (String "." (String (digit d) (String "." rest))))
  = (8 <=? d).
Proof.
  intros Hd. digit_cases d; reflexivity.
Qed.

(** X2. For a version "2.ab.c..." with a two-digit minor and a patch that
    starts with a digit, the check agrees with the numeric order: it passes
    exactly when the minor is at least 75. *)
Theorem version_two_digit_minor (a b c : nat) (rest : string) :
  a < 10 -> b < 10 -> c < 10 ->
  version_assertion
    (String "2" (String "." (String (digit a) (String (digit b)
       (String "." (String (digit c) rest))))))
  = (75 <=? 10 * a + b).
Proof.
  intros Ha Hb Hc. digit_cases a; digit_cases b; digit_cases c;
    reflexivity || (destruct rest; reflexivity).
Qed.

(** X3. For a version "2.abc..." whose minor has three digits, only the
    first two digits count: the check passes exactly when they make at
    least 75, so every version from 2.100 to 2.749 fails it although it is
    newer than 2.75.0. *)
Theorem version_three_digit_minor (a b c : nat) (rest : string) :
  a < 10 -> b < 10 -> c < 10 ->
  version_assertion
    (String "2" (String "." (String (digit a) (String (digit b)
       (String (digit c) rest)))))
  = (75 <=? 10 * a + b).
Proof.
  intros Ha Hb Hc. digit_cases a; digit_cases b; digit_cases c; reflexivity.
Qed.

(** X4. A version whose first character is a digit other than 2 is
    judged on that digit alone: it passes exactly when the digit is 3 or
    more, so "10.0.0" fails and "3.0.0" passes. *)
Theorem version_other_major (d : nat) (rest : string) :
  d < 10 -> d <> 2 ->
  version_assertion (String (digit d) rest) = (3 <=? d).
Proof.
  intros Hd Hne. digit_cases d; reflexivity.
Qed.

Lemma version_other_major_witness : version_assertion "10.0.0" = false.
Proof.
  apply (version_other_major 1 "0.0.0"); lia.
Defined.

Lemma version_one_digit_minor_witness : version_assertion "2.8.0" = true.
Proof.
  apply (version_one_digit_minor 8 "0"). lia.
Defined.

Lemma version_two_digit_minor_witness : version_assertion "2.74.3" = false.
Proof.
  apply (version_two_digit_minor 7 4 3 ""); lia.
Defined.

Lemma version_three_digit_minor_witness : version_assertion "2.100.0" = false.
Proof.
  apply (version_three_digit_minor 1 0 0 ".0"); lia.
Defined.

End VersionCheck.

(** ** The model directory of cell 12 *)

Section ModelId.
Import Stdlib.Strings.Ascii.
Import Notebook.

Example split_examples :
  split "/" "sentence-transformers/all-MiniLM-L6-v2"
  = ["sentence-transformers"; "all-MiniLM-L6-v2"]%string
  /\ split "/" "" = [""]%string
  /\ split "/" "a/" = ["a"; ""]%string
  /\ split "/" "/" = [""; ""]%string.
Proof. repeat split. Qed.

Lemma index_last_cons {A} (x : A) (l : list A) :
  l <> [] -> index_last (x :: l) = index_last l.
Proof.
  destruct l; [congruence | reflexivity].
Qed.

Lemma split_nonempty (sep : ascii) (s : string) : split sep s <> [].
Proof.
  destruct s as [|c rest]; cbn; [discriminate|].
  destruct (Strings.Ascii.eqb c sep); [discriminate|].
  destruct (split sep rest); discriminate.
Qed.

Lemma split_last (sep : ascii) (s : string) :
  exists id prefix,
    index_last (split sep s) = Ok id /\
    contains sep id = false /\
    s = String.append prefix id /\
    ((split sep s = [id] /\ prefix = EmptyString) \/
     (2 <= length (split sep s) /\
      exists p, prefix = String.append p (String sep EmptyString))).
Proof.
  induction s as [|c rest IH].
  - exists EmptyString, EmptyString. repeat split. now left.
  - destruct IH as (id & prefix & Hlast & Hfree & Hrest & Hshape).
    cbn [split]. destruct (Strings.Ascii.eqb c sep) eqn:Hc.
    + apply Strings.Ascii.eqb_eq in Hc. subst c.
      exists id, (String sep prefix). repeat split.
      * rewrite index_last_cons by apply split_nonempty. exact Hlast.
      * exact Hfree.
      * now rewrite Hrest.
      * right. split.
        -- cbn. pose proof (split_nonempty sep rest).
           destruct (split sep rest); [congruence | cbn; lia].
        -- destruct Hshape as [[_ ->] | [_ [p ->]]].
           ++ now exists EmptyString.
           ++ now exists (String sep p).
    + destruct Hshape as [[Hone ->] | [Hlen [p ->]]].
      * rewrite Hone. exists (String c id), EmptyString. repeat split.
        -- cbn. now rewrite Hc, Hfree.
        -- now rewrite Hrest.
        -- now left.
      * destruct (split sep rest) as [|field fields] eqn:Hsplit;
          [cbn in Hlen; lia|].
        assert (Hfields : fields <> []) by (destruct fields; [cbn in Hlen; lia | discriminate]).
        exists id, (String c (String.append p (String sep EmptyString))).
        repeat split.
        -- rewrite index_last_cons by assumption.
           rewrite <- Hlast. symmetry. now apply index_last_cons.
        -- exact Hfree.
        -- now rewrite Hrest.
        -- right. split; [exact Hlen|]. now exists (String c p).
Qed.

(** X5. [repository.split("/")[-1]] never raises: the split has at least
    one field.  The model id it returns holds no "/", and the repository
    name is the model id itself or ends with "/" followed by the model
    id. *)
Theorem model_id_is_last_component (repository : string) :
  exists id prefix,
    model_id repository = Ok id /\
    contains "/" id = false /\
    repository = String.append prefix id /\
    (prefix = EmptyString \/
     exists p, prefix = String.append p "/").
Proof.
  destruct (split_last "/" repository)
    as (id & prefix & Hlast & Hfree & Hrepo & Hshape).
  exists id, prefix. repeat split; try assumption.
  destruct Hshape as [[_ ->] | [_ Hp]]; [now left | now right].
Qed.

Lemma append_nil (s : string) : String.append EmptyString s = s.
Proof. reflexivity. Qed.

Lemma append_cons (c : ascii) (s t : string) :
  String.append (String c s) t = String c (String.append s t).
Proof. reflexivity. Qed.

Lemma split_no_separator (sep : ascii) (s : string) :
  contains sep s = false -> split sep s = [s].
Proof.
  induction s as [|c rest IH]; intros Hfree; [reflexivity|].
  cbn in Hfree. apply orb_false_iff in Hfree as [Hc Hrest].
  cbn. rewrite Hc, IH by assumption. reflexivity.
Qed.

Lemma split_two_fields (sep : ascii) (org name : string) :
  2 <= length (split sep (String.append org (String sep name))).
Proof.
  pose proof (split_nonempty sep name) as Hname.
  induction org as [|c org IH];
    rewrite ?append_nil, ?append_cons; cbn [split].
  - rewrite Strings.Ascii.eqb_refl.
    destruct (split sep name); [congruence | cbn; lia].
  - destruct (Strings.Ascii.eqb c sep).
    + cbn. lia.
    + destruct (split sep (String.append org (String sep name)));
        [cbn in IH; lia | exact IH].
Qed.

Lemma model_id_of_path (org name : string) :
  contains "/" name = false ->
  model_id (String.append org (String "/" name)) = Ok name /\
  model_id name = Ok name.
Proof.
  intros Hfree. unfold model_id. split.
  - induction org as [|c org IH];
      rewrite ?append_nil, ?append_cons; cbn [split].
    + rewrite Strings.Ascii.eqb_refl.
      now rewrite (split_no_separator _ _ Hfree).
    + pose proof (split_two_fields "/" org name) as Hlen.
      destruct (Strings.Ascii.eqb c "/").
      * rewrite index_last_cons by apply split_nonempty. exact IH.
      * destruct (split "/" (String.append org (String "/" name)))
          as [|field fields]; [cbn in Hlen; lia|].
        assert (Hfields : fields <> [])
          by (destruct fields; [cbn in Hlen; lia | discriminate]).
        rewrite index_last_cons by assumption.
        rewrite <- IH. symmetry. now apply index_last_cons.
  - now rewrite (split_no_separator _ _ Hfree).
Qed.

(** X6. The model id is the part after the last "/": for a name without
    "/", the repository "org/name" has model id "name" whatever the
    organisation part is (so the organisation is dropped), and a repository
    that is just "name" has model id "name". *)
Theorem model_id_drops_organisation (org name : string) :
  contains "/" name = false ->
  model_id (String.append org (String "/" name)) = Ok name /\
  model_id name = Ok name.
Proof.
  apply model_id_of_path.
Qed.

(** X7. The upload location of cell 12 does not depend on the
    organisation: two repositories "org1/name" and "org2/name" get the
    same location, "s3://bucket/custom_inference/name/model.tar.gz". *)
Theorem upload_location_ignores_organisation
        (bucket org1 org2 name : string) :
  contains "/" name = false ->
  upload_location bucket (String.append org1 (String "/" name))
  = Ok (s3_location bucket name) /\
  upload_location bucket (String.append org2 (String "/" name))
  = Ok (s3_location bucket name).
Proof.
  intros Hfree. unfold upload_location.
  destruct (model_id_of_path org1 name Hfree) as [-> _].
  destruct (model_id_of_path org2 name Hfree) as [-> _].
  split; reflexivity.
Qed.

Lemma upload_location_ignores_organisation_witness :
  upload_location "sagemaker-us-east-1"
                  "sentence-transformers/all-MiniLM-L6-v2"
  = Ok "s3://sagemaker-us-east-1/custom_inference/all-MiniLM-L6-v2/model.tar.gz"%string
  /\
  upload_location "sagemaker-us-east-1" "someone-else/all-MiniLM-L6-v2"
  = Ok "s3://sagemaker-us-east-1/custom_inference/all-MiniLM-L6-v2/model.tar.gz"%string.
Proof.
  apply (upload_location_ignores_organisation
           "sagemaker-us-east-1" "sentence-transformers" "someone-else"
           "all-MiniLM-L6-v2").
  reflexivity.
Defined.

Lemma model_id_drops_organisation_witness :
  model_id "sentence-transformers/all-MiniLM-L6-v2" = Ok "all-MiniLM-L6-v2"%string
  /\ model_id "all-MiniLM-L6-v2" = Ok "all-MiniLM-L6-v2"%string.
Proof.
  apply (model_id_drops_organisation "sentence-transformers" "all-MiniLM-L6-v2").
  reflexivity.
Defined.

End ModelId.

(** ** [predict_fn]: edge cases, errors and what the payload depends on *)

Section ServingExtras.
Context {T : Type} `{Scalar T}.

Lemma embed_sentences_run (model : @Model T) (tokenizer : Tokenizer)
      (sentences : sentences_arg) (enc : BatchEncoding) (out : ModelOutput T) :
  let e := last_hidden_state out in
  let m := attention_mask enc in
  tokenizer sentences = Ok enc ->
  model enc = Ok out ->
  nrows m = dim0 e -> ncols m = dim1 e ->
  exists pooled normalized,
    mean_pooling out m = Ok pooled /\
    Torch.normalize pooled = Ok normalized /\
    size2 pooled = (dim0 e, dim2 e) /\
    (forall b d, b < dim0 e -> d < dim2 e ->
                 at2 pooled b d = spec_pooled e m b d) /\
    (forall b d, b < dim0 e -> d < dim2 e ->
                 at2 normalized b d
                 = sdiv (at2 pooled b d) (norm_denominator pooled b)) /\
    embed_sentences model tokenizer sentences
    = if 0 <? dim0 e
      then Ok {[ "vectors" := tolist1 (dim2 e) (at2 normalized 0) ]}
      else Raise IndexError.
Proof.
  intros e m Htok Hmodel Hb Hl.
  destruct (mean_pooling_same_shape out m Hb Hl) as (pooled & Hpool & Hsz & Hat).
  destruct (normalize_ok pooled) as (normalized & Hnorm & Hsz' & Hat').
  fold e in Hsz, Hat.
  pose proof Hsz as Hshape. unfold size2 in Hshape.
  injection Hshape as Hrows Hcols.
  unfold size2 in Hsz'. rewrite Hrows, Hcols in Hsz'.
  injection Hsz' as Hrows' Hcols'.
  exists pooled, normalized. repeat split; try assumption.
  - intros b d Hb' Hd'. apply Hat'; lia.
  - unfold embed_sentences.
    rewrite Htok. cbn [bind]. rewrite Hmodel. cbn [bind].
    fold m. rewrite Hpool. cbn [bind]. rewrite Hnorm. cbn [bind].
    unfold Torch.index_row. rewrite Hrows', Hcols'.
    now destruct (0 <? dim0 e).
Qed.

(** X8. When the tokenizer and the encoder answer with an empty batch,
    [predict_fn] raises [IndexError]: pooling and normalisation go through
    and [sentence_embeddings[0]] has no row to read. *)
Theorem predict_fn_empty_batch
        (model : @Model T) (tokenizer : Tokenizer)
        (data : gmap string pyvalue)
        (enc : BatchEncoding) (out : ModelOutput T) :
  let e := last_hidden_state out in
  tokenizer (request_sentences data) = Ok enc ->
  model enc = Ok out ->
  nrows (attention_mask enc) = dim0 e ->
  ncols (attention_mask enc) = dim1 e ->
  dim0 e = 0 ->
  snd (predict_fn data (model, tokenizer)) = Raise IndexError.
Proof.
  intros e Htok Hmodel Hb Hl Hempty.
  destruct (embed_sentences_run model tokenizer _ enc out Htok Hmodel Hb Hl)
    as (pooled & normalized & _ & _ & _ & _ & _ & Hrun).
  rewrite predict_fn_unfold. cbn [snd]. rewrite Hrun.
  fold e. now rewrite Hempty.
Qed.

(** X9. The vector [predict_fn] returns has as many numbers as the encoder
    has hidden dimensions, whatever the batch size and the sequence
    length. *)
Theorem predict_fn_vector_length
        (model : @Model T) (tokenizer : Tokenizer)
        (data : gmap string pyvalue)
        (enc : BatchEncoding) (out : ModelOutput T) :
  let e := last_hidden_state out in
  tokenizer (request_sentences data) = Ok enc ->
  model enc = Ok out ->
  nrows (attention_mask enc) = dim0 e ->
  ncols (attention_mask enc) = dim1 e ->
  0 < dim0 e ->
  exists vector,
    snd (predict_fn data (model, tokenizer)) = Ok {[ "vectors" := vector ]} /\
    length vector = dim2 e.
Proof.
  intros e Htok Hmodel Hb Hl Hpos.
  destruct (embed_sentences_run model tokenizer _ enc out Htok Hmodel Hb Hl)
    as (pooled & normalized & _ & _ & _ & _ & _ & Hrun).
  fold e in Hrun.
  destruct (Nat.ltb_spec 0 (dim0 e)) as [_ | Hle]; [|lia].
  eexists. split.
  - rewrite predict_fn_unfold. cbn [snd]. exact Hrun.
  - apply tolist1_length.
Qed.

(** X10. The payload depends on the first sentence only: two runs whose
    encoder outputs and masks agree on row 0 (same sequence length and
    hidden dimension) return the same payload, whatever the other rows
    hold and however many there are. *)
Theorem predict_fn_reads_first_row_only
        (model1 model2 : @Model T) (tokenizer1 tokenizer2 : Tokenizer)
        (data1 data2 : gmap string pyvalue)
        (enc1 enc2 : BatchEncoding) (out1 out2 : ModelOutput T) :
  let e1 := last_hidden_state out1 in
  let e2 := last_hidden_state out2 in
  let m1 := attention_mask enc1 in
  let m2 := attention_mask enc2 in
  tokenizer1 (request_sentences data1) = Ok enc1 ->
  tokenizer2 (request_sentences data2) = Ok enc2 ->
  model1 enc1 = Ok out1 -> model2 enc2 = Ok out2 ->
  nrows m1 = dim0 e1 -> ncols m1 = dim1 e1 ->
  nrows m2 = dim0 e2 -> ncols m2 = dim1 e2 ->
  0 < dim0 e1 -> 0 < dim0 e2 ->
  dim1 e1 = dim1 e2 -> dim2 e1 = dim2 e2 ->
  (forall l, l < dim1 e1 -> at2 m1 0 l = at2 m2 0 l) ->
  (forall l d, l < dim1 e1 -> d < dim2 e1 -> at3 e1 0 l d = at3 e2 0 l d) ->
  snd (predict_fn data1 (model1, tokenizer1))
  = snd (predict_fn data2 (model2, tokenizer2)).
Proof.
  intros e1 e2 m1 m2 Htok1 Htok2 Hmod1 Hmod2 Hb1 Hl1 Hb2 Hl2
         Hpos1 Hpos2 HL HD Hmask Hemb.
  destruct (embed_sentences_run model1 tokenizer1 _ enc1 out1 Htok1 Hmod1 Hb1 Hl1)
    as (p1 & n1 & _ & _ & Hsz1 & Hp1 & Hn1 & Hrun1).
  destruct (embed_sentences_run model2 tokenizer2 _ enc2 out2 Htok2 Hmod2 Hb2 Hl2)
    as (p2 & n2 & _ & _ & Hsz2 & Hp2 & Hn2 & Hrun2).
  fold e1 m1 in Hsz1, Hp1, Hn1, Hrun1. fold e2 m2 in Hsz2, Hp2, Hn2, Hrun2.
  unfold size2 in Hsz1, Hsz2.
  injection Hsz1 as Hr1 Hc1. injection Hsz2 as Hr2 Hc2.
  rewrite !predict_fn_unfold. cbn [snd]. rewrite Hrun1, Hrun2.
  destruct (Nat.ltb_spec 0 (dim0 e1)) as [_ | ?]; [|lia].
  destruct (Nat.ltb_spec 0 (dim0 e2)) as [_ | ?]; [|lia].
  assert (Hpooled : forall d, d < dim2 e1 -> at2 p1 0 d = at2 p2 0 d).
  { intros d Hd. rewrite Hp1, Hp2 by lia.
    unfold spec_pooled. rewrite <- HL.
    f_equal; [f_equal | f_equal; f_equal];
      apply tolist1_ext; intros l Hlt;
      now rewrite ?Hmask, ?Hemb by assumption. }
  assert (Hden : norm_denominator p1 0 = norm_denominator p2 0).
  { unfold norm_denominator, Torch.row_norm.
    rewrite Hc1, Hc2, <- HD. do 3 f_equal.
    apply tolist1_ext. intros d Hd. now rewrite Hpooled. }
  rewrite <- HD. do 2 f_equal.
  apply tolist1_ext. intros d Hd.
  rewrite Hn1, Hn2 by lia. now rewrite Hpooled, Hden.
Qed.

(** X11. A mask whose batch size or sequence length neither equals the
    embeddings' nor is 1 makes [predict_fn] raise the [RuntimeError] of
    [mean_pooling]: no payload is returned. *)
Theorem predict_fn_shape_mismatch
        (model : @Model T) (tokenizer : Tokenizer)
        (data : gmap string pyvalue)
        (enc : BatchEncoding) (out : ModelOutput T) :
  let e := last_hidden_state out in
  let m := attention_mask enc in
  tokenizer (request_sentences data) = Ok enc ->
  model enc = Ok out ->
  (nrows m <> dim0 e /\ nrows m <> 1) \/ (ncols m <> dim1 e /\ ncols m <> 1) ->
  snd (predict_fn data (model, tokenizer)) = Raise RuntimeError.
Proof.
  intros e m Htok Hmodel Hbad.
  rewrite predict_fn_unfold. cbn [snd]. unfold embed_sentences.
  rewrite Htok. cbn [bind]. rewrite Hmodel. cbn [bind].
  rewrite mean_pooling_mismatch; [reflexivity|].
  fold e m. destruct Hbad as [Hbad | Hbad]; [left | right];
    now apply expandable_false.
Qed.

(** X12. The request is changed before anything can fail: when the
    tokenizer or the encoder raises, [predict_fn] raises the same exception
    and the caller's mapping has lost its "inputs" key all the same. *)
Theorem predict_fn_failure_keeps_the_pop
        (model : @Model T) (tokenizer : Tokenizer)
        (data : gmap string pyvalue) (v : pyvalue) (err : exception) :
  data !! "inputs" = Some v ->
  tokenizer (Popped v) = Raise err \/
  (exists enc, tokenizer (Popped v) = Ok enc /\ model enc = Raise err) ->
  predict_fn data (model, tokenizer) = (delete "inputs" data, Raise err).
Proof.
  intros Hin Hfail.
  rewrite predict_fn_unfold. unfold request_sentences, dict_pop.
  rewrite Hin. cbn [fst snd]. f_equal.
  unfold embed_sentences.
  destruct Hfail as [-> | (enc & -> & Hmodel)]; [reflexivity|].
  cbn [bind]. now rewrite Hmodel.
Qed.

(** X13. A second call on the same mapping does not see the sentences
    again: after a call that found "inputs", the mapping has no such key,
    so the next call tokenises the mapping itself and leaves it as it is. *)
Theorem predict_fn_second_call
        (model : @Model T) (tokenizer : Tokenizer)
        (data : gmap string pyvalue) (v : pyvalue) :
  data !! "inputs" = Some v ->
  let after := fst (predict_fn data (model, tokenizer)) in
  predict_fn after (model, tokenizer)
  = (after, embed_sentences model tokenizer (WholeRequest after)).
Proof.
  intros Hin after.
  assert (Hafter : after = delete "inputs" data).
  { unfold after. rewrite predict_fn_unfold. unfold dict_pop.
    now rewrite Hin. }
  rewrite predict_fn_unfold. unfold request_sentences, dict_pop.
  rewrite Hafter, lookup_delete_eq. reflexivity.
Qed.

End ServingExtras.

(** ** [mean_pooling] under broadcasting *)

Section BroadcastExtras.
Context {T : Type} `{Scalar T}.

(** X14. A mask with a single row is applied to every sentence of the
    batch: each pooled row is weighted by row 0 of the mask. *)
Theorem mean_pooling_single_row_mask (out : ModelOutput T) (m : Tensor2 Z) :
  let e := last_hidden_state out in
  nrows m = 1 -> ncols m = dim1 e ->
  exists pooled,
    mean_pooling out m = Ok pooled /\
    size2 pooled = (dim0 e, dim2 e) /\
    forall b d, b < dim0 e -> d < dim2 e ->
      at2 pooled b d
      = sdiv (Torch.ssum (tolist1 (dim1 e)
                 (fun l => smul (at3 e b l d) (of_int (at2 m 0 l)))))
             (sclamp_min (Torch.ssum (tolist1 (dim1 e)
                 (fun l => of_int (at2 m 0 l)))) lit_1e_9).
Proof.
  intros e Hone Hl.
  destruct (mean_pooling_expandable out m) as (pooled & Hrun & Hsz & Hat).
  - fold e. rewrite Hone. apply expandable_singleton.
  - fold e. rewrite Hl. apply expandable_refl.
  - exists pooled. repeat split; try assumption.
    intros b d Hb Hd. fold e in Hat. rewrite Hat by assumption.
    unfold pooled_numerator, pooled_denominator, mask_weight.
    rewrite Hone. change (Torch.bidx 1 b) with 0.
    f_equal; [f_equal | f_equal; f_equal];
      apply tolist1_ext; intros l Hlt;
      now rewrite (bidx_lt (ncols m) l) by lia.
Qed.

End BroadcastExtras.

Lemma mean_pooling_single_row_mask_witness :
  let out : ModelOutput spec_float := Examples.output [[[3]]; [[4]]]%Z in
  let m := Examples.mask [[1]]%Z in
  exists pooled,
    mean_pooling out m = Ok pooled /\
    size2 pooled = (2, 1) /\
    forall b d, b < 2 -> d < 1 ->
      at2 pooled b d
      = sdiv (Torch.ssum (tolist1 1
                 (fun l => smul (at3 (last_hidden_state out) b l d)
                                (of_int (at2 m 0 l)))))
             (sclamp_min (Torch.ssum (tolist1 1
                 (fun l => of_int (at2 m 0 l)))) lit_1e_9).
Proof.
  apply (mean_pooling_single_row_mask
           (Examples.output [[[3]]; [[4]]]%Z) (Examples.mask [[1]]%Z));
    reflexivity.
Defined.

(** ** Pooling and normalisation in exact arithmetic *)

Section RealExtras.
Local Open Scope R_scope.

Lemma rsum_extend (n n' : nat) (f : nat -> R) :
  (n <= n')%nat ->
  (forall l, (n <= l < n')%nat -> f l = 0) ->
  Torch.ssum (tolist1 n' f) = Torch.ssum (tolist1 n f).
Proof.
  intros Hle. induction Hle as [|n' Hle IH]; intros Hpad; [reflexivity|].
  rewrite rsum_S, IH by (intros; apply Hpad; lia).
  rewrite (Hpad n') by lia. lra.
Qed.

Lemma rsum_le (n : nat) (f g : nat -> R) :
  (forall i, (i < n)%nat -> f i <= g i) ->
  Torch.ssum (tolist1 n f) <= Torch.ssum (tolist1 n g).
Proof.
  induction n as [|n IH]; intros Hfg; [rewrite !rsum_0; lra|].
  rewrite !rsum_S.
  assert (f n <= g n) by (apply Hfg; lia).
  assert (Torch.ssum (tolist1 n f) <= Torch.ssum (tolist1 n g))
    by (apply IH; intros; apply Hfg; lia).
  lra.
Qed.

Lemma rsum_plus (n : nat) (f g : nat -> R) :
  Torch.ssum (tolist1 n (fun i => f i + g i))
  = Torch.ssum (tolist1 n f) + Torch.ssum (tolist1 n g).
Proof.
  induction n as [|n IH]; [rewrite !rsum_0; lra|].
  rewrite !rsum_S, IH. lra.
Qed.

Lemma rsum_ge_term (n : nat) (f : nat -> R) (i : nat) :
  (forall j, (j < n)%nat -> 0 <= f j) -> (i < n)%nat ->
  f i <= Torch.ssum (tolist1 n f).
Proof.
  induction n as [|n IH]; intros Hf Hi; [lia|].
  rewrite rsum_S.
  assert (0 <= f n) by (apply Hf; lia).
  assert (0 <= Torch.ssum (tolist1 n f))
    by (apply rsum_nonneg; intros; apply Hf; lia).
  destruct (Nat.eq_dec i n) as [-> | Hne]; [lra|].
  assert (f i <= Torch.ssum (tolist1 n f))
    by (apply IH; [intros; apply Hf; lia | lia]).
  lra.
Qed.

(** X15. Padding does not change the pooled row: if a row is given more
    token positions, all masked out, and its first positions keep their
    mask and embeddings, [mean_pooling] returns the same row. *)
Theorem padding_does_not_change_pooling
        (out out' : ModelOutput R) (m m' : Tensor2 Z) (b : nat) :
  let e := last_hidden_state out in
  let e' := last_hidden_state out' in
  nrows m = dim0 e -> ncols m = dim1 e ->
  nrows m' = dim0 e' -> ncols m' = dim1 e' ->
  (b < dim0 e)%nat -> (b < dim0 e')%nat ->
  dim2 e' = dim2 e -> (dim1 e <= dim1 e')%nat ->
  (forall l, (l < dim1 e)%nat -> at2 m' b l = at2 m b l) ->
  (forall l d, (l < dim1 e)%nat -> (d < dim2 e)%nat ->
               at3 e' b l d = at3 e b l d) ->
  (forall l, (dim1 e <= l < dim1 e')%nat -> at2 m' b l = 0%Z) ->
  exists pooled pooled',
    mean_pooling out m = Ok pooled /\
    mean_pooling out' m' = Ok pooled' /\
    forall d, (d < dim2 e)%nat -> at2 pooled' b d = at2 pooled b d.
Proof.
  intros e e' Hb Hl Hb' Hl' Hrow Hrow' HD HL Hmask Hemb Hpad.
  destruct (mean_pooling_same_shape out m Hb Hl) as (p & Hrun & _ & Hat).
  destruct (mean_pooling_same_shape out' m' Hb' Hl') as (p' & Hrun' & _ & Hat').
  fold e in Hat. fold e' in Hat'.
  exists p, p'. repeat split; try assumption.
  intros d Hd. rewrite Hat, Hat' by lia.
  unfold spec_pooled. cbn [sdiv smul sclamp_min of_int RealScalar].
  rewrite (rsum_extend (dim1 e) (dim1 e')
             (fun l => at3 e' b l d * IZR (at2 m' b l)) HL)
    by (intros l Hlt; rewrite Hpad by assumption; lra).
  rewrite (rsum_extend (dim1 e) (dim1 e') (fun l => IZR (at2 m' b l)) HL)
    by (intros l Hlt; now rewrite Hpad).
  f_equal; [f_equal | f_equal; f_equal]; apply tolist1_ext; intros l Hlt;
    now rewrite ?Hmask, ?Hemb by assumption.
Qed.

(** X16. A pooled value is a mean: for a {0,1} mask row with at least one
    1, element [d] of the pooled row lies between any two bounds of
    element [d] of the unmasked token embeddings. *)
Theorem pooled_lies_between_bounds
        (out : ModelOutput R) (m : Tensor2 Z) (b d : nat) (lo hi : R) :
  let e := last_hidden_state out in
  nrows m = dim0 e -> ncols m = dim1 e ->
  (b < dim0 e)%nat -> (d < dim2 e)%nat ->
  (forall l, (l < dim1 e)%nat -> at2 m b l = 0%Z \/ at2 m b l = 1%Z) ->
  (exists l, (l < dim1 e)%nat /\ at2 m b l = 1%Z) ->
  (forall l, (l < dim1 e)%nat -> at2 m b l = 1%Z ->
             lo <= at3 e b l d <= hi) ->
  exists pooled,
    mean_pooling out m = Ok pooled /\
    lo <= at2 pooled b d <= hi.
Proof.
  intros e Hb Hl Hrow Hd Hmask (l0 & Hl0 & Hone) Hbounds.
  destruct (mean_pooling_same_shape out m Hb Hl) as (p & Hrun & _ & Hat).
  fold e in Hat. exists p. split; [assumption|].
  rewrite Hat by assumption.
  unfold spec_pooled. cbn [sdiv smul sclamp_min of_int RealScalar].
  set (w := fun l => IZR (at2 m b l)).
  set (S := Torch.ssum (tolist1 (dim1 e) w)).
  set (N := Torch.ssum (tolist1 (dim1 e) (fun l => at3 e b l d * w l))).
  change (Torch.ssum (tolist1 (dim1 e)
            (fun l => at3 e b l d * IZR (at2 m b l)))) with N.
  assert (Hw : forall l, (l < dim1 e)%nat -> 0 <= w l).
  { intros l Hlt. unfold w. destruct (Hmask l Hlt) as [-> | ->]; lra. }
  assert (HS : 1 <= S).
  { replace 1 with (w l0) by (unfold w; now rewrite Hone).
    now apply rsum_ge_term. }
  assert (Hlo : S * lo <= N).
  { unfold S. rewrite <- rsum_scale. apply rsum_le. intros l Hlt.
    unfold w. destruct (Hmask l Hlt) as [Hz | Ho].
    - rewrite Hz. lra.
    - rewrite Ho. specialize (Hbounds l Hlt Ho). lra. }
  assert (Hhi : N <= S * hi).
  { unfold S. rewrite <- rsum_scale. apply rsum_le. intros l Hlt.
    unfold w. destruct (Hmask l Hlt) as [Hz | Ho].
    - rewrite Hz. lra.
    - rewrite Ho. specialize (Hbounds l Hlt Ho). lra. }
  rewrite Rmax_left by (cbn; lra).
  split.
  - apply (Rmult_le_reg_r S); [lra|].
    unfold Rdiv. rewrite Rmult_assoc, Rinv_l by lra. lra.
  - apply (Rmult_le_reg_r S); [lra|].
    unfold Rdiv. rewrite Rmult_assoc, Rinv_l by lra. lra.
Qed.

(** X17. [mean_pooling] is linear in the token embeddings: for a fixed
    mask, pooling [a * e1 + c * e2] gives [a] times the pooling of [e1]
    plus [c] times the pooling of [e2]. *)
Theorem mean_pooling_linear
        (out1 out2 out3 : ModelOutput R) (m : Tensor2 Z) (b : nat) (a c : R) :
  let e1 := last_hidden_state out1 in
  let e2 := last_hidden_state out2 in
  let e3 := last_hidden_state out3 in
  size3 e2 = size3 e1 -> size3 e3 = size3 e1 ->
  nrows m = dim0 e1 -> ncols m = dim1 e1 ->
  (b < dim0 e1)%nat ->
  (forall l d, (l < dim1 e1)%nat -> (d < dim2 e1)%nat ->
               at3 e3 b l d = a * at3 e1 b l d + c * at3 e2 b l d) ->
  exists pooled1 pooled2 pooled3,
    mean_pooling out1 m = Ok pooled1 /\
    mean_pooling out2 m = Ok pooled2 /\
    mean_pooling out3 m = Ok pooled3 /\
    forall d, (d < dim2 e1)%nat ->
      at2 pooled3 b d = a * at2 pooled1 b d + c * at2 pooled2 b d.
Proof.
  intros e1 e2 e3 Hs2 Hs3 Hb Hl Hrow Hlin.
  unfold size3 in Hs2, Hs3.
  injection Hs2 as H20 H21 H22. injection Hs3 as H30 H31 H32.
  destruct (mean_pooling_same_shape out1 m Hb Hl) as (p1 & Hrun1 & _ & Hat1).
  destruct (mean_pooling_same_shape out2 m) as (p2 & Hrun2 & _ & Hat2);
    [fold e2; congruence | fold e2; congruence |].
  destruct (mean_pooling_same_shape out3 m) as (p3 & Hrun3 & _ & Hat3);
    [fold e3; congruence | fold e3; congruence |].
  fold e1 in Hat1. fold e2 in Hat2. fold e3 in Hat3.
  exists p1, p2, p3. repeat split; try assumption.
  intros d Hd. rewrite Hat1, Hat2, Hat3 by lia.
  unfold spec_pooled. rewrite H21, H31.
  cbn [sdiv smul sclamp_min of_int RealScalar].
  rewrite (tolist1_ext _ (fun l => at3 e3 b l d * IZR (at2 m b l))
             (fun l => (at3 e1 b l d * IZR (at2 m b l)) * a
                       + (at3 e2 b l d * IZR (at2 m b l)) * c))
    by (intros l Hlt; rewrite Hlin by assumption; ring).
  rewrite rsum_plus, !rsum_scale.
  unfold Rdiv. ring.
Qed.

(** X18. Normalisation never lengthens a row beyond 1: whatever the pooled
    row, the L2 norm of the normalised row is at most 1 and each of its
    elements lies in [-1, 1]. *)
Theorem normalized_row_within_unit_ball (p : Tensor2 R) (b : nat) :
  (b < nrows p)%nat ->
  exists q,
    Torch.normalize p = Ok q /\
    Torch.row_norm q b <= 1 /\
    forall d, (d < ncols p)%nat -> Rabs (at2 q b d) <= 1.
Proof.
  intros Hb.
  destruct (normalize_ok p) as (q & Hrun & _ & Hat).
  exists q. split; [assumption|].
  pose proof (norm_denominator_pos p b) as Hc.
  pose proof (row_norm_nonneg p b) as Hn.
  assert (Hle : Torch.row_norm p b <= norm_denominator p b).
  { unfold norm_denominator. cbn [sclamp_min RealScalar]. apply Rmax_l. }
  split.
  - rewrite (row_norm_normalized p q b Hrun Hb).
    apply (Rmult_le_reg_r (norm_denominator p b)); [assumption|].
    unfold Rdiv. rewrite Rmult_assoc, Rinv_l by lra. lra.
  - intros d Hd. rewrite Hat by assumption.
    cbn [sdiv RealScalar].
    assert (Habs : Rabs (at2 p b d) <= Torch.row_norm p b).
    { rewrite <- sqrt_Rsqr_abs. unfold Torch.row_norm.
      apply sqrt_le_1_alt.
      apply (rsum_ge_term (ncols p) (fun j => at2 p b j * at2 p b j) d);
        [intros; apply Rle_0_sqr | assumption]. }
    unfold Rdiv. rewrite Rabs_mult, (Rabs_right (/ _))
      by (left; now apply Rinv_0_lt_compat).
    apply (Rmult_le_reg_r (norm_denominator p b)); [assumption|].
    rewrite Rmult_assoc, Rinv_l by lra. lra.
Qed.

(** X19. Above the floor the normalised row depends on the direction of
    the pooled row only: multiplying a row of norm at least 1e-12 by a
    factor [k > 0] that keeps its norm at least 1e-12 does not change its
    normalisation. *)
Theorem normalize_scale_invariant (p p' : Tensor2 R) (b : nat) (k : R) :
  size2 p' = size2 p -> (b < nrows p)%nat -> 0 < k ->
  (forall d, (d < ncols p)%nat -> at2 p' b d = k * at2 p b d) ->
  lit_1e_12 <= Torch.row_norm p b ->
  lit_1e_12 <= k * Torch.row_norm p b ->
  exists q q',
    Torch.normalize p = Ok q /\
    Torch.normalize p' = Ok q' /\
    forall d, (d < ncols p)%nat -> at2 q' b d = at2 q b d.
Proof.
  intros Hsz Hb Hk Hscaled Hbig Hbig'.
  unfold size2 in Hsz. injection Hsz as Hrows Hcols.
  destruct (normalize_ok p) as (q & Hrun & _ & Hat).
  destruct (normalize_ok p') as (q' & Hrun' & _ & Hat').
  exists q, q'. repeat split; try assumption.
  intros d Hd.
  pose proof lit_1e_12_pos as Heps.
  assert (Hnorm' : Torch.row_norm p' b = Torch.row_norm p b * k).
  { unfold Torch.row_norm. rewrite Hcols.
    rewrite (tolist1_ext _ _ (fun j => (at2 p b j * at2 p b j) * (k * k)))
      by (intros j Hj; cbn [smul RealScalar];
          rewrite Hscaled by assumption; ring).
    rewrite rsum_scale, sqrt_mult_alt by apply sum_squares_nonneg.
    rewrite (sqrt_square k) by lra. reflexivity. }
  rewrite Hat' by lia. rewrite Hat by assumption.
  unfold norm_denominator. rewrite Hnorm'.
  cbn [sdiv sclamp_min RealScalar].
  rewrite !Rmax_left by lra.
  rewrite Hscaled by assumption. field. lra.
Qed.

End RealExtras.

(** ** Instances of the further properties *)

Section ExtraInstances.
Import Examples.
Local Open Scope Z_scope.

Lemma predict_fn_empty_batch_witness :
  snd (predict_fn (T:=spec_float) {[ "inputs" := PyList [] ]}
                  (fixed_model [], fixed_tokenizer []))
  = Raise IndexError.
Proof.
  apply (predict_fn_empty_batch
           (fixed_model []) (fixed_tokenizer [])
           {[ "inputs" := PyList [] ]}
           (mkBatchEncoding (mask []) (mask [])) (output []));
    reflexivity.
Defined.

Lemma predict_fn_vector_length_witness :
  exists vector,
    snd (predict_fn (T:=spec_float) {[ "inputs" := PyStr "first" ]}
           (fixed_model [[[1; 0; 2]; [3; 0; 2]]], fixed_tokenizer [[1; 1]]))
    = Ok {[ "vectors" := vector ]} /\
    length vector = 3%nat.
Proof.
  apply (predict_fn_vector_length
           (fixed_model [[[1; 0; 2]; [3; 0; 2]]]) (fixed_tokenizer [[1; 1]])
           {[ "inputs" := PyStr "first" ]}
           (mkBatchEncoding (mask [[1; 1]]) (mask [[1; 1]]))
           (output [[[1; 0; 2]; [3; 0; 2]]]));
    try reflexivity.
  cbn. lia.
Defined.

Lemma predict_fn_reads_first_row_only_witness :
  snd (predict_fn (T:=spec_float)
         {[ "inputs" := PyList ["first"; "second"]%string ]}
         (fixed_model [[[1; 0]; [3; 0]]; [[0; 2]; [0; 4]]],
          fixed_tokenizer [[1; 1]; [1; 1]]))
  = snd (predict_fn (T:=spec_float)
         {[ "inputs" := PyStr "first" ]}
         (fixed_model [[[1; 0]; [3; 0]]], fixed_tokenizer [[1; 1]])).
Proof.
  apply (predict_fn_reads_first_row_only
           (fixed_model [[[1; 0]; [3; 0]]; [[0; 2]; [0; 4]]])
           (fixed_model [[[1; 0]; [3; 0]]])
           (fixed_tokenizer [[1; 1]; [1; 1]]) (fixed_tokenizer [[1; 1]])
           {[ "inputs" := PyList ["first"; "second"]%string ]}
           {[ "inputs" := PyStr "first" ]}
           (mkBatchEncoding (mask [[1; 1]; [1; 1]]) (mask [[1; 1]; [1; 1]]))
           (mkBatchEncoding (mask [[1; 1]]) (mask [[1; 1]]))
           (output [[[1; 0]; [3; 0]]; [[0; 2]; [0; 4]]])
           (output [[[1; 0]; [3; 0]]]));
    try reflexivity; cbn; lia.
Defined.

Lemma predict_fn_shape_mismatch_witness :
  snd (predict_fn (T:=spec_float) {[ "inputs" := PyStr "first" ]}
         (fixed_model [[[3]]; [[4]]], fixed_tokenizer [[1]; [1]; [1]]))
  = Raise RuntimeError.
Proof.
  apply (predict_fn_shape_mismatch
           (fixed_model [[[3]]; [[4]]]) (fixed_tokenizer [[1]; [1]; [1]])
           {[ "inputs" := PyStr "first" ]}
           (mkBatchEncoding (mask [[1]; [1]; [1]]) (mask [[1]; [1]; [1]]))
           (output [[[3]]; [[4]]]));
    try reflexivity.
  left. cbn. lia.
Defined.

Lemma predict_fn_failure_keeps_the_pop_witness :
  predict_fn (T:=spec_float)
             {[ "inputs" := PyStr "first"; "id" := PyInt 7 ]}
             (fixed_model [[[3]]], fun _ => Raise (External "tokenizer"))
  = (delete "inputs" {[ "inputs" := PyStr "first"; "id" := PyInt 7 ]},
     Raise (External "tokenizer")).
Proof.
  apply (predict_fn_failure_keeps_the_pop
           (fixed_model [[[3]]]) (fun _ => Raise (External "tokenizer"))
           {[ "inputs" := PyStr "first"; "id" := PyInt 7 ]}
           (PyStr "first") (External "tokenizer")).
  - reflexivity.
  - left. reflexivity.
Defined.

Lemma predict_fn_second_call_witness :
  let data : gmap string pyvalue :=
    {[ "inputs" := PyStr "first"; "id" := PyInt 7 ]} in
  let mt := (fixed_model (T:=spec_float) [[[3]]], fixed_tokenizer [[1]]) in
  predict_fn (fst (predict_fn data mt)) mt
  = (fst (predict_fn data mt),
     embed_sentences (fst mt) (snd mt)
                     (WholeRequest (fst (predict_fn data mt)))).
Proof.
  apply (predict_fn_second_call
           (fixed_model [[[3]]]) (fixed_tokenizer [[1]])
           {[ "inputs" := PyStr "first"; "id" := PyInt 7 ]}
           (PyStr "first")).
  reflexivity.
Defined.

End ExtraInstances.

Section RealExtraInstances.
Import Examples.
Local Open Scope R_scope.

Lemma padding_does_not_change_pooling_witness :
  let out : ModelOutput R := output [[[1; 0]; [3; 0]]]%Z in
  let out' : ModelOutput R := output [[[1; 0]; [3; 0]; [9; 9]]]%Z in
  exists pooled pooled',
    mean_pooling out (mask [[1; 1]]%Z) = Ok pooled /\
    mean_pooling out' (mask [[1; 1; 0]]%Z) = Ok pooled' /\
    forall d, (d < 2)%nat -> at2 pooled' 0 d = at2 pooled 0 d.
Proof.
  apply (padding_does_not_change_pooling
           (output [[[1; 0]; [3; 0]]]%Z) (output [[[1; 0]; [3; 0]; [9; 9]]]%Z)
           (mask [[1; 1]]%Z) (mask [[1; 1; 0]]%Z) 0);
    try reflexivity; try (cbn; lia).
  - intros l Hl. cbn in Hl.
    destruct l as [|[|l]]; [reflexivity | reflexivity | lia].
  - intros l d Hl Hd. cbn in Hl, Hd.
    destruct l as [|[|l]]; [| | lia];
      (destruct d as [|[|d]]; [reflexivity | reflexivity | lia]).
  - intros l Hl. cbn in Hl.
    destruct l as [|[|[|l]]]; [lia | lia | reflexivity | lia].
Defined.

Lemma pooled_lies_between_bounds_witness :
  exists pooled,
    mean_pooling (T:=R) (output [[[1; 0]; [3; 0]]]%Z) (mask [[1; 1]]%Z)
    = Ok pooled /\
    1 <= at2 pooled 0 0 <= 3.
Proof.
  apply (pooled_lies_between_bounds
           (output [[[1; 0]; [3; 0]]]%Z) (mask [[1; 1]]%Z) 0 0 1 3);
    try reflexivity; try (cbn; lia).
  - intros l Hl. cbn in Hl.
    destruct l as [|[|l]]; [right; reflexivity | right; reflexivity | lia].
  - exists 0%nat. split; [cbn; lia | reflexivity].
  - intros l Hl _. cbn in Hl.
    destruct l as [|[|l]]; [cbn; lra | cbn; lra | lia].
Defined.

Lemma mean_pooling_linear_witness :
  exists pooled1 pooled2 pooled3,
    mean_pooling (T:=R) (output [[[1]]]%Z) (mask [[1]]%Z) = Ok pooled1 /\
    mean_pooling (T:=R) (output [[[2]]]%Z) (mask [[1]]%Z) = Ok pooled2 /\
    mean_pooling (T:=R) (output [[[8]]]%Z) (mask [[1]]%Z) = Ok pooled3 /\
    forall d, (d < 1)%nat ->
      at2 pooled3 0 d = 2 * at2 pooled1 0 d + 3 * at2 pooled2 0 d.
Proof.
  apply (mean_pooling_linear
           (output [[[1]]]%Z) (output [[[2]]]%Z) (output [[[8]]]%Z)
           (mask [[1]]%Z) 0 2 3);
    try reflexivity; try (cbn; lia).
  intros l d Hl Hd. cbn in Hl, Hd.
  destruct l as [|l]; [|lia]. destruct d as [|d]; [|lia].
  cbn. lra.
Defined.

Lemma normalized_row_within_unit_ball_witness :
  exists q,
    Torch.normalize (single 2) = Ok q /\
    Torch.row_norm q 0 <= 1 /\
    forall d, (d < 1)%nat -> Rabs (at2 q 0 d) <= 1.
Proof.
  apply (normalized_row_within_unit_ball (single 2) 0).
  cbn. lia.
Defined.

Lemma normalize_scale_invariant_witness :
  exists q q',
    Torch.normalize (single 2) = Ok q /\
    Torch.normalize (single 6) = Ok q' /\
    forall d, (d < 1)%nat -> at2 q' 0 d = at2 q 0 d.
Proof.
  apply (normalize_scale_invariant (single 2) (single 6) 0 3).
  - reflexivity.
  - cbn. lia.
  - lra.
  - intros d Hd. cbn in Hd. destruct d as [|d]; [cbn; lra | lia].
  - rewrite row_norm_one_column; cbn; [lra | reflexivity | lra].
  - rewrite row_norm_one_column; cbn; [lra | reflexivity | lra].
Defined.

End RealExtraInstances.
